(** * rmf_task_sequence: the WaitForConfirmation event

    A shallow embedding of the two implementations of
    [rmf_task_sequence::events::WaitForConfirmation] and the properties of
    their estimators.

    - [Live] follows the implementation that talks to ROS 2: the estimator
      publishes its UUID on [/request_confirmation], latches
      [_confirmation_received] when the same UUID comes back on
      [/confirmation_received], and fails its estimate on timeout.
    - [AlwaysAdvance] follows [WaitForConfirmation.cpp]: the estimator has no
      messaging and every estimate adds one wait interval.

    Conventions.
    - [rmf_traffic::Time] and [rmf_traffic::Duration] are nanosecond counts
      ([std::chrono] on a signed 64-bit representation).  They are integers in
      [Z]; overflow of the representation is undefined behaviour in C++ and
      lies outside this model.
    - [double] is IEEE 754 binary64, i.e. Rocq's primitive [float]; [0.0],
      subtraction and the comparisons [<] and [<=] are the primitive ones,
      so comparisons with NaN are false as in C++.
    - [std::optional::value()] on an empty optional throws
      [std::bad_optional_access]; an execution therefore either returns a
      value or throws, and what it did to the mutable members and to the
      outside world before throwing stays done. *)

From Stdlib Require Import ZArith String Floats Lia.
From stdpp Require Import base tactics option list.

Local Open Scope string_scope.
Local Open Scope Z_scope.

(* Decimal literals such as 0.01 stand for the nearest binary64 value. *)
Set Warnings "-inexact-float".

(** ** Executions that may throw *)

Inductive Exception : Type :=
| bad_optional_access.

Inductive Result (A : Type) : Type :=
| Returns (a : A)
| Throws (e : Exception).
Arguments Returns {A} a.
Arguments Throws {A} e.

(** A computation over a mutable store [S]. *)
Definition Exec (S A : Type) : Type := S -> Result A * S.

Definition ret {S A : Type} (a : A) : Exec S A :=
  fun s => (Returns a, s).

Definition throw {S A : Type} (e : Exception) : Exec S A :=
  fun s => (Throws e, s).

Definition bind {S A B : Type} (c : Exec S A) (k : A -> Exec S B) : Exec S B :=
  fun s =>
    match c s with
    | (Returns a, s') => k a s'
    | (Throws e, s') => (Throws e, s')
    end.

Declare Scope exec_scope.
Delimit Scope exec_scope with exec.
Notation "x <- c ;; k" := (bind c (fun x => k))
  (at level 100, c at next level, right associativity) : exec_scope.
Notation "c ;; k" := (bind c (fun _ => k))
  (at level 100, right associativity) : exec_scope.
Local Open Scope exec_scope.

(** [std::optional<T>::value()]. *)
Definition value {S A : Type} (o : option A) : Exec S A :=
  match o with
  | Some a => ret a
  | None => throw bad_optional_access
  end.

(** ** Types of rmf_traffic and rmf_task used by the event *)

Definition Time : Type := Z.
Definition Duration : Type := Z.

(** One second, in the nanoseconds of [rmf_traffic::Duration]. *)
Definition seconds (n : Z) : Duration := n * 1000000000.

(** Modelled from the spec: [rmf_task::State] is declared outside the event's
    sources.  It carries an optional time and an optional battery state of
    charge; a setter stores a value in the caller's copy of the state. *)
Record State : Type := mkState {
  time : option Time;
  battery_soc : option float
}.

Definition set_time (state : State) (new_time : Time) : State :=
  {| time := Some new_time; battery_soc := battery_soc state |}.

Definition set_battery_soc (state : State) (new_battery_soc : float) : State :=
  {| time := time state; battery_soc := Some new_battery_soc |}.

(** Modelled from the spec: [rmf_task::Constraints], read-only in an
    estimation call. *)
Record Constraints : Type := mkConstraints {
  threshold_soc : float;
  drain_battery : bool
}.

(** Modelled from the spec: [rmf_task::Estimate] pairs the resulting state
    with a finish time. *)
Record Estimate : Type := mkEstimate {
  finish_state : State;
  wait_until : Time
}.

(** Modelled from the spec: the ambient power sink of [rmf_task::Parameters],
    whose only operation maps a duration in seconds to a change in charge. *)
Record DevicePowerSink : Type := mkDevicePowerSink {
  compute_change_in_charge : float -> float
}.

Record Parameters : Type := mkParameters {
  ambient_sink : option DevicePowerSink
}.

(** Modelled from the spec: [rmf_task::Header], the triple of a title, a
    detail and an expected duration that describes an event for display. *)
Record Header : Type := mkHeader {
  category : string;
  detail : string;
  original_duration_estimate : Duration
}.

(** ** The event description, shared by both implementations *)

Module Description.

(** [WaitForConfirmation::Description::Implementation]. *)
Record Implementation : Type := mkImplementation {
  initial_wait_duration : Duration;
  timeout_duration : Duration
}.

(** [Description::make] and the constructor: the two durations are stored
    as given. *)
Definition make (initial_wait_duration_ timeout_duration_ : Duration)
  : Implementation :=
  {| initial_wait_duration := initial_wait_duration_;
     timeout_duration := timeout_duration_ |}.

(** The setters replace one duration and hand back the description. *)
Definition set_initial_wait_duration (d : Implementation)
    (new_initial_wait_duration : Duration) : Implementation :=
  {| initial_wait_duration := new_initial_wait_duration;
     timeout_duration := timeout_duration d |}.

Definition set_timeout_duration (d : Implementation)
    (new_timeout_duration : Duration) : Implementation :=
  {| initial_wait_duration := initial_wait_duration d;
     timeout_duration := new_timeout_duration |}.

End Description.

(** ** The implementation with confirmation messaging *)

Module Live.

(** *** What the estimator shares with the rest of the process

    - [steady_clock] is the sequence of values that successive calls of
      [std::chrono::steady_clock::now()] return, and [clock_reads] counts
      the calls made so far;
    - [uuid_random] is the sequence of strings that successive calls of
      [generate_uuid] produce, and [uuid_reads] counts them;
    - [request_confirmation_topic] holds the messages published on
      [/request_confirmation], newest first;
    - [logger] holds the lines written through [RCLCPP_INFO], [RCLCPP_WARN]
      and [RCLCPP_ERROR], newest first. *)
Inductive Severity : Type := INFO | WARN | ERROR.

Record World : Type := mkWorld {
  steady_clock : nat -> Time;
  clock_reads : nat;
  uuid_random : nat -> string;
  uuid_reads : nat;
  request_confirmation_topic : list string;
  logger : list (Severity * string)
}.

(** [WaitForConfirmation::Model]: the data members, the two [mutable]
    ones included.  The ROS publisher and subscription are the topic of
    [World] and the delivery of [deliver] below. *)
Record Model : Type := mkModel {
  _invariant_finish_state : State;
  _invariant_battery_drain : float;
  _initial_wait_duration : Duration;
  _timeout_duration : Duration;
  _confirmation_received : bool;
  _confirmation_request_time : Time;
  _task_uuid : string
}.

(** A member function runs on its object and on the world. *)
Definition Method (A : Type) : Type := Exec (Model * World) A.

Definition this : Method Model :=
  fun s => (Returns (fst s), s).

(** The effects on the world, one at a time: a clock read moves to the next
    clock value, a publication and a log line are put in front of the
    earlier ones. *)
Definition tick (w : World) : World :=
  {| steady_clock := steady_clock w;
     clock_reads := S (clock_reads w);
     uuid_random := uuid_random w;
     uuid_reads := uuid_reads w;
     request_confirmation_topic := request_confirmation_topic w;
     logger := logger w |}.

Definition published (data : string) (w : World) : World :=
  {| steady_clock := steady_clock w;
     clock_reads := clock_reads w;
     uuid_random := uuid_random w;
     uuid_reads := uuid_reads w;
     request_confirmation_topic := data :: request_confirmation_topic w;
     logger := logger w |}.

Definition logged (severity : Severity) (line : string) (w : World) : World :=
  {| steady_clock := steady_clock w;
     clock_reads := clock_reads w;
     uuid_random := uuid_random w;
     uuid_reads := uuid_reads w;
     request_confirmation_topic := request_confirmation_topic w;
     logger := (severity, line) :: logger w |}.

(** The writes to the two mutable members. *)
Definition with_confirmation_request_time (t : Time) (self : Model) : Model :=
  {| _invariant_finish_state := _invariant_finish_state self;
     _invariant_battery_drain := _invariant_battery_drain self;
     _initial_wait_duration := _initial_wait_duration self;
     _timeout_duration := _timeout_duration self;
     _confirmation_received := _confirmation_received self;
     _confirmation_request_time := t;
     _task_uuid := _task_uuid self |}.

Definition with_confirmation_received (b : bool) (self : Model) : Model :=
  {| _invariant_finish_state := _invariant_finish_state self;
     _invariant_battery_drain := _invariant_battery_drain self;
     _initial_wait_duration := _initial_wait_duration self;
     _timeout_duration := _timeout_duration self;
     _confirmation_received := b;
     _confirmation_request_time := _confirmation_request_time self;
     _task_uuid := _task_uuid self |}.

(** [std::chrono::steady_clock::now()]. *)
Definition steady_clock_now : Method Time :=
  fun '(self, w) => (Returns (steady_clock w (clock_reads w)), (self, tick w)).

(** [_confirmation_pub->publish(msg)] with [msg.data = data]. *)
Definition publish (data : string) : Method unit :=
  fun '(self, w) => (Returns tt, (self, published data w)).

(** [RCLCPP_INFO], [RCLCPP_WARN] and [RCLCPP_ERROR] on the node's logger. *)
Definition RCLCPP (severity : Severity) (line : string) : Method unit :=
  fun '(self, w) => (Returns tt, (self, logged severity line w)).

Definition set_confirmation_request_time (t : Time) : Method unit :=
  fun '(self, w) => (Returns tt, (with_confirmation_request_time t self, w)).

Definition set_confirmation_received (b : bool) : Method unit :=
  fun '(self, w) => (Returns tt, (with_confirmation_received b self, w)).

(** *** The member functions *)

(** [Model::generate_uuid]: the next string of the random source. *)
Definition generate_uuid (w : World) : string * World :=
  (uuid_random w (uuid_reads w),
   {| steady_clock := steady_clock w;
      clock_reads := clock_reads w;
      uuid_random := uuid_random w;
      uuid_reads := S (uuid_reads w);
      request_confirmation_topic := request_confirmation_topic w;
      logger := logger w |}).

(** [Model::request_confirmation]. *)
Definition request_confirmation : Method unit :=
  self <- this ;;
  publish (_task_uuid self) ;;
  RCLCPP INFO ("Confirmation requested with UUID: " ++ _task_uuid self) ;;
  now <- steady_clock_now ;;
  set_confirmation_request_time now.

(** [Model::on_confirmation_received], the subscription callback. *)
Definition on_confirmation_received (data : string) : Method unit :=
  self <- this ;;
  if String.eqb data (_task_uuid self) then
    set_confirmation_received true ;;
    RCLCPP INFO ("Confirmation received for UUID: " ++ data)
  else
    RCLCPP WARN ("Received confirmation with unmatched UUID: " ++ data).

(** [Model::estimate_finish].  The travel estimator is not used and is left
    out.  [state] is the callee's copy of the caller's state. *)
Definition estimate_finish (state : State) (earliest_arrival_time : Time)
    (constraints : Constraints) : Method (option Estimate) :=
  current_time <- steady_clock_now ;;
  self <- this ;;
  let elapsed_time := current_time - _confirmation_request_time self in
  if negb (_confirmation_received self) then
    if elapsed_time >? _timeout_duration self then
      RCLCPP ERROR "Confirmation timeout reached. Failing the task." ;;
      ret None
    else
      t <- value (time state) ;;
      let state := set_time state (t + _initial_wait_duration self) in
      request_confirmation ;;
      let check_threshold (state : State) : Method (option Estimate) :=
        soc <- value (battery_soc state) ;;
        if (soc <=? threshold_soc constraints)%float then
          RCLCPP ERROR
            "Battery SOC below threshold while waiting for confirmation." ;;
          ret None
        else
          ret (Some {| finish_state := state;
                       wait_until := earliest_arrival_time |}) in
      if drain_battery constraints then
        let additional_drain := _invariant_battery_drain self in
        soc <- value (battery_soc state) ;;
        let new_battery_soc := (soc - additional_drain)%float in
        if (new_battery_soc <? 0)%float then
          RCLCPP ERROR "Battery depleted while waiting for confirmation." ;;
          ret None
        else
          check_threshold (set_battery_soc state new_battery_soc)
      else
        check_threshold state
  else
    RCLCPP INFO "Confirmation received. Finalizing the task." ;;
    let check_threshold (state : State) : Method (option Estimate) :=
      soc <- value (battery_soc state) ;;
      if (soc <=? threshold_soc constraints)%float then
        RCLCPP ERROR "Battery SOC below threshold upon confirmation." ;;
        ret None
      else
        t <- value (time state) ;;
        ret (Some {| finish_state := state; wait_until := t |}) in
    if drain_battery constraints then
      soc <- value (battery_soc state) ;;
      let new_battery_soc := (soc - _invariant_battery_drain self)%float in
      if (new_battery_soc <? 0)%float then
        RCLCPP ERROR "Battery depleted upon confirmation." ;;
        ret None
      else
        check_threshold (set_battery_soc state new_battery_soc)
    else
      check_threshold state.

(** [Model::invariant_duration]. *)
Definition invariant_duration (self : Model) : Duration :=
  if _confirmation_received self then 0 else _initial_wait_duration self.

(** [Model::invariant_finish_state]. *)
Definition invariant_finish_state (self : Model) : State :=
  _invariant_finish_state self.

(** *** Construction *)

Section Construction.

(** [rmf_traffic::time::to_seconds], declared outside the event's
    sources. *)
Variable to_seconds : Duration -> float.

(** [Model::Model].  The member initialisers draw the UUID and clear the
    latch; the body computes the drain of one wait interval and requests
    the first confirmation, which is what first writes
    [_confirmation_request_time] (the [0] below is never read). *)
Definition Model_new (invariant_initial_state : State)
    (initial_wait_duration timeout_duration : Duration)
    (parameters : Parameters) (w : World) : Model * World :=
  let '(uuid, w) := generate_uuid w in
  let battery_drain :=
    match ambient_sink parameters with
    | Some sink =>
        let duration :=
          if initial_wait_duration <? 0 then 0
          else initial_wait_duration in
        compute_change_in_charge sink (to_seconds duration)
    | None => 0%float
    end in
  let self :=
    {| _invariant_finish_state := invariant_initial_state;
       _invariant_battery_drain := battery_drain;
       _initial_wait_duration := initial_wait_duration;
       _timeout_duration := timeout_duration;
       _confirmation_received := false;
       _confirmation_request_time := 0;
       _task_uuid := uuid |} in
  snd (request_confirmation (self, w)).

(** [Description::make_model].  The node that it creates for the estimator
    stands behind the topics and the logger of the world. *)
Definition make_model (d : Description.Implementation)
    (invariant_initial_state : State) (parameters : Parameters)
    (w : World) : Model * World :=
  Model_new invariant_initial_state
    (Description.initial_wait_duration d)
    (Description.timeout_duration d) parameters w.

End Construction.

(** [Description::generate_header].  Neither the state nor the parameters
    are read. *)
Definition generate_header (d : Description.Implementation) (state : State)
    (parameters : Parameters) : Header :=
  {| category := "Waiting for Confirmation";
     detail := "Waiting until confirmation is received or timeout occurs";
     original_duration_estimate := Description.initial_wait_duration d |}.

(** *** Several live estimators on the same pair of topics *)

(** Modelled from the spec: the delivery of one message of the response
    topic (the rclcpp executor is outside the sources).  Every live
    estimator subscribes to [/confirmation_received], so the message is
    handed to the callback of each of them in turn. *)
Fixpoint deliver (data : string) (live : list Model) (w : World)
  : list Model * World :=
  match live with
  | [] => ([], w)
  | self :: rest =>
      let '(self', w') := snd (on_confirmation_received data (self, w)) in
      let '(rest', w'') := deliver data rest w' in
      (self' :: rest', w'')
  end.

Record System : Type := mkSystem {
  estimators : list Model;
  world : World
}.

(** What the scheduler and the messaging layer can do to a system of live
    estimators: build one more from a description, ask the [i]-th one for
    an estimate, or deliver a message of the response topic. *)
Inductive Op : Type :=
| op_make_model (d : Description.Implementation)
    (invariant_initial_state : State) (parameters : Parameters)
| op_estimate_finish (i : nat) (state : State)
    (earliest_arrival_time : Time) (constraints : Constraints)
| op_message (data : string).

Section Run.

Variable to_seconds : Duration -> float.

Definition run_op (sys : System) (op : Op) : System :=
  match op with
  | op_make_model d invariant_initial_state parameters =>
      let '(self, w) :=
        make_model to_seconds d invariant_initial_state parameters
          (world sys) in
      {| estimators := estimators sys ++ [self]; world := w |}
  | op_estimate_finish i state earliest_arrival_time constraints =>
      match estimators sys !! i with
      | Some self =>
          let '(self', w) :=
            snd (estimate_finish state earliest_arrival_time constraints
                   (self, world sys)) in
          {| estimators := <[i:=self']> (estimators sys); world := w |}
      | None => sys
      end
  | op_message data =>
      let '(live, w) := deliver data (estimators sys) (world sys) in
      {| estimators := live; world := w |}
  end.

Definition run_ops (sys : System) (ops : list Op) : System :=
  foldl run_op sys ops.

End Run.

End Live.

(** ** The implementation without messaging *)

Module AlwaysAdvance.

(** [WaitForConfirmation::Model] of [WaitForConfirmation.cpp]. *)
Record Model : Type := mkModel {
  _invariant_finish_state : State;
  _invariant_battery_drain : float;
  _initial_wait_duration : Duration;
  _timeout_duration : Duration
}.

(** The member functions are [const] and the object has no mutable
    member: they run on an empty store. *)
Definition Method (A : Type) : Type := Exec unit A.

Section Construction.

Variable to_seconds : Duration -> float.

(** [Model::Model]. *)
Definition Model_new (invariant_initial_state : State)
    (initial_wait_duration timeout_duration : Duration)
    (parameters : Parameters) : Model :=
  let battery_drain :=
    match ambient_sink parameters with
    | Some sink =>
        let initial_wait_duration :=
          if initial_wait_duration <? 0 then 0
          else initial_wait_duration in
        compute_change_in_charge sink (to_seconds initial_wait_duration)
    | None => 0%float
    end in
  {| _invariant_finish_state := invariant_initial_state;
     _invariant_battery_drain := battery_drain;
     _initial_wait_duration := initial_wait_duration;
     _timeout_duration := timeout_duration |}.

(** [Description::make_model]. *)
Definition make_model (d : Description.Implementation)
    (invariant_initial_state : State) (parameters : Parameters) : Model :=
  Model_new invariant_initial_state
    (Description.initial_wait_duration d)
    (Description.timeout_duration d) parameters.

End Construction.

(** [Model::estimate_finish]. *)
Definition estimate_finish (self : Model) (state : State)
    (earliest_arrival_time : Time) (constraints : Constraints)
  : Method (option Estimate) :=
  t <- value (time state) ;;
  let state := set_time state (t + _initial_wait_duration self) in
  let check_threshold (state : State) : Method (option Estimate) :=
    soc <- value (battery_soc state) ;;
    if (soc <=? threshold_soc constraints)%float then ret None
    else
      ret (Some {| finish_state := state;
                   wait_until := earliest_arrival_time |}) in
  if drain_battery constraints then
    soc <- value (battery_soc state) ;;
    let new_battery_soc := (soc - _invariant_battery_drain self)%float in
    if (new_battery_soc <? 0)%float then ret None
    else check_threshold (set_battery_soc state new_battery_soc)
  else
    check_threshold state.

(** [Model::invariant_duration]. *)
Definition invariant_duration (self : Model) : Duration :=
  _initial_wait_duration self.

(** [Model::invariant_finish_state]. *)
Definition invariant_finish_state (self : Model) : State :=
  _invariant_finish_state self.

(** [Description::generate_header]. *)
Definition generate_header (d : Description.Implementation) (state : State)
    (parameters : Parameters) : Header :=
  {| category := "Waiting";
     detail := "Waiting for confirmation";
     original_duration_estimate := Description.initial_wait_duration d |}.

End AlwaysAdvance.

(** ** Vocabulary of the statements *)

(** The elapsed wait that the next [estimate_finish] of [self] computes: the
    next clock value minus [_confirmation_request_time]. *)
Definition elapsed (self : Live.Model) (w : Live.World) : Duration :=
  Live.steady_clock w (Live.clock_reads w) - Live._confirmation_request_time self.

(** The state of charge that the threshold comparison reads: the charge of
    the state less one interval's drain when the battery is drained, the
    charge of the state otherwise. *)
Definition post_drain_soc (drain : float) (constraints : Constraints)
    (soc : float) : float :=
  if drain_battery constraints then (soc - drain)%float else soc.

(** The state from which the scheduler makes its next call: the state of the
    estimate when the call gave one, the same state again when it did not. *)
Definition next_state (state : State) (r : Result (option Estimate)) : State :=
  match r with
  | Returns (Some estimate) => finish_state estimate
  | _ => state
  end.

(** The scheduler polling an estimator [n] times in a row with the same
    arrival time and constraints.  The outcome is the list of the results in
    the order of the calls, the state for the next call, and the estimator
    and the world as the calls leave them. *)
Fixpoint poll (n : nat) (state : State) (earliest_arrival_time : Time)
    (constraints : Constraints) (s : Live.Model * Live.World)
  : list (Result (option Estimate)) * (State * (Live.Model * Live.World)) :=
  match n with
  | O => ([], (state, s))
  | S n' =>
      let '(r, s') :=
        Live.estimate_finish state earliest_arrival_time constraints s in
      let '(rs, last) :=
        poll n' (next_state state r) earliest_arrival_time constraints s' in
      (r :: rs, last)
  end.

(** What the callback leaves of an estimator that receives [data]. *)
Definition received (data : string) (self : Live.Model) : Live.Model :=
  if String.eqb data (Live._task_uuid self)
  then Live.with_confirmation_received true self
  else self.

(** A call that the timeout does not reject: the estimator is latched, or
    the elapsed wait is within the timeout. *)
Definition past_timeout_test (self : Live.Model) (w : Live.World) : Prop :=
  Live._confirmation_received self = true
  \/ elapsed self w <= Live._timeout_duration self.

(** The world after a call that the timeout rejects: one clock read and one
    line of log. *)
Definition after_timeout (w : Live.World) : Live.World :=
  Live.logged Live.ERROR "Confirmation timeout reached. Failing the task."
    (Live.tick w).

(** The clock of [w] stays past the deadline of [self] from the next read
    on. *)
Definition stays_late (self : Live.Model) (w : Live.World) : Prop :=
  forall k : nat,
    Live._confirmation_request_time self + Live._timeout_duration self
    < Live.steady_clock w (Live.clock_reads w + k).

(** What a successful call of an unlatched estimator leaves behind: the
    request went out again and the request time is the clock value read for
    it, the one after the value that the timeout test read. *)
Definition after_wait (self : Live.Model) (w : Live.World)
  : Live.Model * Live.World :=
  (Live.with_confirmation_request_time
     (Live.steady_clock w (S (Live.clock_reads w))) self,
   Live.tick
     (Live.logged Live.INFO
        ("Confirmation requested with UUID: " ++ Live._task_uuid self)
        (Live.published (Live._task_uuid self) (Live.tick w)))).

(** The elapsed wait that the call after the first [k] calls of a poll
    computes. *)
Definition elapsed_at (k : nat) (state : State) (earliest_arrival_time : Time)
    (constraints : Constraints) (s : Live.Model * Live.World) : Duration :=
  let s' := snd (snd (poll k state earliest_arrival_time constraints s)) in
  elapsed (fst s') (snd s').

(** The estimate of the [k]-th successful call in a row, counted from 0, on
    a state that started at [t0] with charge [soc] and is not drained. *)
Definition kth_estimate (wait : Duration) (t0 : Time) (soc : float)
    (earliest_arrival_time : Time) (k : nat) : Result (option Estimate) :=
  Returns (Some {| finish_state :=
                     {| time := Some (t0 + Z.of_nat (S k) * wait);
                        battery_soc := Some soc |};
                   wait_until := earliest_arrival_time |}).

(** ** Vocabulary of the further properties *)

(** The estimator without messaging that has the members of [self] which
    both implementations declare. *)
Definition without_messaging (self : Live.Model) : AlwaysAdvance.Model :=
  {| AlwaysAdvance._invariant_finish_state := Live._invariant_finish_state self;
     AlwaysAdvance._invariant_battery_drain :=
       Live._invariant_battery_drain self;
     AlwaysAdvance._initial_wait_duration := Live._initial_wait_duration self;
     AlwaysAdvance._timeout_duration := Live._timeout_duration self |}.

(** The number of lines that the log holds at severity [ERROR]. *)
Definition is_error (line : Live.Severity * string) : bool :=
  match fst line with
  | Live.ERROR => true
  | _ => false
  end.

Definition errors (w : Live.World) : nat :=
  length (List.filter is_error (Live.logger w)).

(** The UUIDs of the live estimators of a system, in the order in which the
    estimators were built. *)
Definition uuids (sys : Live.System) : list string :=
  map Live._task_uuid (Live.estimators sys).

(** The charge after [n] calls that each passed the battery tests. *)
Definition charge_after (drain : float) (constraints : Constraints) (n : nat)
    (soc : float) : float :=
  Nat.iter n (post_drain_soc drain constraints) soc.

(** The battery tests as the calls make them on the charge [left] that the
    threshold comparison reads: with [drain_battery] the charge must not be
    below [0.0], and in any case it must be above the threshold. *)
Definition battery_passes (constraints : Constraints) (left : float) : bool :=
  negb (drain_battery constraints && (left <? 0)%float)
  && negb (left <=? threshold_soc constraints)%float.

(** ** Sample inputs *)

(** A conversion of nanoseconds to seconds in [double]: the count as a
    [double], divided by [1e9]. *)
Definition sample_to_seconds (d : Duration) : float :=
  (match d with
   | Z.neg _ => - of_uint63 (Uint63.of_Z (- d))
   | _ => of_uint63 (Uint63.of_Z d)
   end / 1000000000)%float.

(** An ambient sink that drains 0.002 of the charge per second. *)
Definition sample_sink : DevicePowerSink :=
  {| compute_change_in_charge := fun s => (s * 0.002)%float |}.

Definition sample_parameters : Parameters :=
  {| ambient_sink := Some sample_sink |}.

(** A process whose clock returns the listed values, then 0, and whose UUID
    source returns the two listed strings, then the second again. *)
Definition sample_world (clock : list Time) : Live.World :=
  {| Live.steady_clock := fun n => nth n clock 0;
     Live.clock_reads := 0;
     Live.uuid_random := fun n =>
       match n with
       | O => "0b6f1a9e-52c4-4d0e-8b7a-3f1c2d4e5a60"
       | _ => "9d2c7e41-aa31-4f86-b0c5-7e8f90a1b2c3"
       end;
     Live.uuid_reads := 0;
     Live.request_confirmation_topic := [];
     Live.logger := [] |}.

Definition sample_state (t : Time) (soc : float) : State :=
  {| time := Some t; battery_soc := Some soc |}.

(** Two estimators of the description [make(5s, 20s)], built one after the
    other at clock values 0 and 0. *)
Definition two_estimators : Live.System :=
  Live.run_ops sample_to_seconds
    {| Live.estimators := []; Live.world := sample_world [] |}
    [Live.op_make_model (Description.make (seconds 5) (seconds 20))
       (sample_state 0 0.5) sample_parameters;
     Live.op_make_model (Description.make (seconds 5) (seconds 20))
       (sample_state 0 0.5) sample_parameters].

Definition first_estimator : Live.Model :=
  {| Live._invariant_finish_state := sample_state 0 0.5;
     Live._invariant_battery_drain := 0.01;
     Live._initial_wait_duration := seconds 5;
     Live._timeout_duration := seconds 20;
     Live._confirmation_received := false;
     Live._confirmation_request_time := 0;
     Live._task_uuid := "0b6f1a9e-52c4-4d0e-8b7a-3f1c2d4e5a60" |}.

Definition plain_estimator : AlwaysAdvance.Model :=
  {| AlwaysAdvance._invariant_finish_state := sample_state 0 0.5;
     AlwaysAdvance._invariant_battery_drain := 0.01;
     AlwaysAdvance._initial_wait_duration := seconds 5;
     AlwaysAdvance._timeout_duration := seconds 20 |}.

Definition no_drain (threshold : float) : Constraints :=
  {| threshold_soc := threshold; drain_battery := false |}.

Definition with_drain (threshold : float) : Constraints :=
  {| threshold_soc := threshold; drain_battery := true |}.

Definition unset_state : State := {| time := None; battery_soc := None |}.

Definition latched_estimator : Live.Model :=
  Live.with_confirmation_received true first_estimator.

(** A process whose clock stands still at [t]. *)
Definition stopped_world (t : Time) : Live.World :=
  {| Live.steady_clock := fun _ => t;
     Live.clock_reads := 0;
     Live.uuid_random := fun _ => "0b6f1a9e-52c4-4d0e-8b7a-3f1c2d4e5a60";
     Live.uuid_reads := 0;
     Live.request_confirmation_topic := [];
     Live.logger := [] |}.

(** A clock on which the elapsed waits of five calls in a row are 5, 10, 15,
    20 and 21 seconds, for an estimator whose request time is 0: each call
    reads the clock twice, first for the timeout test and then for the new
    request time. *)
Definition widening_clock : list Time :=
  map seconds [5; 5; 15; 15; 30; 30; 50; 50; 71].

(** A source of identifiers that never repeats: the [n]-th one is [n] times
    the digit 1 in front of the letter u. *)
Fixpoint tally (n : nat) : string :=
  match n with
  | O => "u"
  | S m => "1" ++ tally m
  end.

Definition tally_world : Live.World :=
  {| Live.steady_clock := fun _ => 0;
     Live.clock_reads := 0;
     Live.uuid_random := tally;
     Live.uuid_reads := 0;
     Live.request_confirmation_topic := [];
     Live.logger := [] |}.

Definition build_two : list Live.Op :=
  [Live.op_make_model (Description.make (seconds 5) (seconds 20))
     (sample_state 0 0.5) sample_parameters;
   Live.op_make_model (Description.make (seconds 5) (seconds 20))
     (sample_state 0 0.5) sample_parameters].

(** ** Proof automation *)

(** Unfolding one call down to its tests, then splitting on each test,
    innermost first. *)
Ltac run_method :=
  unfold Live.estimate_finish, AlwaysAdvance.estimate_finish,
    Live.request_confirmation, Live.on_confirmation_received;
  unfold value, bind, ret, throw, Live.this, Live.steady_clock_now,
    Live.publish, Live.RCLCPP, Live.set_confirmation_request_time,
    Live.set_confirmation_received;
  simpl.

Ltac rewrite_facts :=
  repeat match goal with
    | H : ?x = _ |- context [?x] => rewrite H; simpl
    end.

Ltac split_tests :=
  repeat match goal with
    | |- context [match ?x with _ => _ end] =>
        lazymatch x with
        | context [match _ with _ => _ end] => fail
        | _ => destruct x eqn:?; simpl in *
        end
    end.

Ltac use_timeout_test H :=
  unfold past_timeout_test, elapsed in H;
  match goal with
  | Hflag : negb (Live._confirmation_received _) = true,
    Hgt : (_ >? _) = true |- _ =>
      apply Z.gtb_lt in Hgt; apply negb_true_iff in Hflag;
      destruct H as [H|H]; [congruence | lia]
  end.

(** ** Basic facts *)

Lemma request_confirmation_run (self : Live.Model) (w : Live.World) :
  Live.request_confirmation (self, w) =
  (Returns tt,
   (Live.with_confirmation_request_time
      (Live.steady_clock w (Live.clock_reads w)) self,
    Live.tick
      (Live.logged Live.INFO
         ("Confirmation requested with UUID: " ++ Live._task_uuid self)
         (Live.published (Live._task_uuid self) w)))).
Proof. reflexivity. Qed.

Lemma estimate_finish_timeout (self : Live.Model) (w : Live.World)
    (state : State) (t : Time) (c : Constraints) :
  Live._confirmation_received self = false ->
  Live._timeout_duration self < elapsed self w ->
  Live.estimate_finish state t c (self, w) =
  (Returns None,
   (self,
    Live.logged Live.ERROR "Confirmation timeout reached. Failing the task."
      (Live.tick w))).
Proof.
  intros Hflag Hlate. unfold elapsed in Hlate.
  unfold Live.estimate_finish, bind, Live.steady_clock_now, Live.this. simpl.
  rewrite Hflag. simpl.
  destruct (Z.gtb_spec (Live.steady_clock w (Live.clock_reads w)
                        - Live._confirmation_request_time self)
              (Live._timeout_duration self)); [reflexivity | lia].
Qed.

(** No call of [estimate_finish] writes the latch, the UUID or a member that
    the constructor fixed; the request time is the only member it writes. *)
Lemma estimate_finish_keeps_latch (self : Live.Model) (w : Live.World)
    (state : State) (t : Time) (c : Constraints) :
  let self' := fst (snd (Live.estimate_finish state t c (self, w))) in
  Live._confirmation_received self' = Live._confirmation_received self
  /\ Live._task_uuid self' = Live._task_uuid self
  /\ Live._initial_wait_duration self' = Live._initial_wait_duration self
  /\ Live._timeout_duration self' = Live._timeout_duration self
  /\ Live._invariant_battery_drain self' = Live._invariant_battery_drain self
  /\ Live._invariant_finish_state self' = Live._invariant_finish_state self.
Proof.
  run_method. split_tests; repeat split; reflexivity.
Qed.

(** ** The latch *)

Lemma on_confirmation_received_run (data : string) (self : Live.Model)
    (w : Live.World) :
  Live.on_confirmation_received data (self, w) =
  if String.eqb data (Live._task_uuid self) then
    (Returns tt,
     (Live.with_confirmation_received true self,
      Live.logged Live.INFO ("Confirmation received for UUID: " ++ data) w))
  else
    (Returns tt,
     (self,
      Live.logged Live.WARN
        ("Received confirmation with unmatched UUID: " ++ data) w)).
Proof.
  run_method. destruct (String.eqb data (Live._task_uuid self)); reflexivity.
Qed.

Lemma deliver_estimators (data : string) (live : list Live.Model)
    (w : Live.World) :
  fst (Live.deliver data live w) = map (received data) live.
Proof.
  revert w. induction live as [|self rest IH]; intros w; simpl.
  - reflexivity.
  - rewrite on_confirmation_received_run. unfold received at 1.
    destruct (String.eqb data (Live._task_uuid self)); simpl;
      match goal with
      | |- context [Live.deliver data rest ?w'] =>
          specialize (IH w'); destruct (Live.deliver data rest w') as [rest' w'']
      end; simpl in *; congruence.
Qed.

Lemma received_latch (data : string) (self : Live.Model) :
  Live._confirmation_received (received data self) =
    Live._confirmation_received self || String.eqb data (Live._task_uuid self)
  /\ Live._task_uuid (received data self) = Live._task_uuid self.
Proof.
  unfold received.
  destruct (String.eqb data (Live._task_uuid self)); simpl;
    [rewrite orb_true_r | rewrite orb_false_r]; split; reflexivity.
Qed.

Section Latch.

Variable to_seconds : Duration -> float.

(** One operation moves the [i]-th estimator to an estimator with the same
    UUID, and the latch of the new one is set exactly when the old latch was
    set or the operation is a message that carries the UUID. *)
Lemma run_op_latch (sys : Live.System) (op : Live.Op) (i : nat)
    (self : Live.Model) :
  Live.estimators sys !! i = Some self ->
  exists self',
    Live.estimators (Live.run_op to_seconds sys op) !! i = Some self'
    /\ Live._task_uuid self' = Live._task_uuid self
    /\ Live._confirmation_received self' =
         Live._confirmation_received self
         || match op with
            | Live.op_message data => String.eqb data (Live._task_uuid self)
            | _ => false
            end.
Proof.
  intros Hi. destruct op as [d s0 p | j state t c | data]; simpl.
  - destruct (Live.make_model to_seconds d s0 p (Live.world sys)) as [new w'].
    exists self. simpl. rewrite lookup_app_l by (eapply lookup_lt_Some; eauto).
    rewrite orb_false_r. auto.
  - destruct (Live.estimators sys !! j) as [other|] eqn:Hj.
    + pose proof (estimate_finish_keeps_latch other (Live.world sys) state t c)
        as Hkeep.
      destruct (Live.estimate_finish state t c (other, Live.world sys))
        as [r [other' w']]. simpl in *.
      destruct (decide (i = j)) as [->|Hne].
      * exists other'. rewrite list_lookup_insert_eq
          by (eapply lookup_lt_Some; eauto).
        assert (other = self) by congruence. subst other.
        rewrite orb_false_r. intuition.
      * exists self. rewrite list_lookup_insert_ne by congruence.
        rewrite orb_false_r. auto.
    + exists self. rewrite orb_false_r. auto.
  - pose proof (deliver_estimators data (Live.estimators sys) (Live.world sys))
      as Hd.
    destruct (Live.deliver data (Live.estimators sys) (Live.world sys))
      as [live w']. simpl in *. subst live.
    exists (received data self). rewrite list_lookup_fmap, Hi. simpl.
    destruct (received_latch data self). auto.
Qed.

Lemma run_ops_latch (ops : list Live.Op) (sys : Live.System) (i : nat)
    (self : Live.Model) :
  Live.estimators sys !! i = Some self ->
  Live._confirmation_received self = true ->
  exists self',
    Live.estimators (Live.run_ops to_seconds sys ops) !! i = Some self'
    /\ Live._task_uuid self' = Live._task_uuid self
    /\ Live._confirmation_received self' = true.
Proof.
  revert sys self. induction ops as [|op ops IH]; intros sys self Hi Hset.
  - exists self. auto.
  - destruct (run_op_latch sys op i self Hi) as (mid & Hmid & Huuid & Hflag).
    rewrite Hset in Hflag. simpl in Hflag.
    destruct (IH (Live.run_op to_seconds sys op) mid Hmid Hflag)
      as (self' & Hlast & Huuid' & Hflag').
    exists self'. unfold Live.run_ops in *. simpl. split; [exact Hlast|].
    split; congruence.
Qed.

End Latch.

(** C8.  [_confirmation_received] is a one-way latch.  For the [i]-th live
    estimator [self] of a system: a delivered message that carries the UUID of
    [self] sets its latch; a delivered message with any other payload leaves
    [self] as it is, whatever it does to the other estimators; an operation
    that turns the latch of [self] from false to true is the delivery of a
    message carrying the UUID of [self]; and once set the latch stays set
    under every sequence of operations. *)
Theorem confirmation_received_is_a_one_way_latch
    (to_seconds : Duration -> float) (sys : Live.System) (i : nat)
    (self : Live.Model) :
  Live.estimators sys !! i = Some self ->
  (exists self',
     Live.estimators
       (Live.run_op to_seconds sys (Live.op_message (Live._task_uuid self)))
       !! i = Some self'
     /\ Live._confirmation_received self' = true)
  /\ (forall data : string,
        data <> Live._task_uuid self ->
        Live.estimators (Live.run_op to_seconds sys (Live.op_message data))
          !! i = Some self)
  /\ (forall (op : Live.Op) (self' : Live.Model),
        Live.estimators (Live.run_op to_seconds sys op) !! i = Some self' ->
        Live._confirmation_received self = false ->
        Live._confirmation_received self' = true ->
        op = Live.op_message (Live._task_uuid self))
  /\ (forall ops : list Live.Op,
        Live._confirmation_received self = true ->
        exists self',
          Live.estimators (Live.run_ops to_seconds sys ops) !! i = Some self'
          /\ Live._confirmation_received self' = true).
Proof.
  intros Hi. repeat split.
  - destruct (run_op_latch to_seconds sys
                (Live.op_message (Live._task_uuid self)) i self Hi)
      as (self' & Hafter & _ & Hflag).
    exists self'. split; [exact Hafter|].
    rewrite Hflag, String.eqb_refl. apply orb_true_r.
  - intros data Hne. simpl.
    pose proof (deliver_estimators data (Live.estimators sys) (Live.world sys))
      as Hd.
    destruct (Live.deliver data (Live.estimators sys) (Live.world sys))
      as [live w']. simpl in *. subst live.
    rewrite list_lookup_fmap, Hi. simpl. unfold received.
    destruct (String.eqb_spec data (Live._task_uuid self)); congruence.
  - intros op self' Hafter Hclear Hset.
    destruct (run_op_latch to_seconds sys op i self Hi)
      as (self'' & Hafter' & _ & Hflag).
    assert (self'' = self') by congruence. subst self''.
    rewrite Hclear, Hset in Hflag. simpl in Hflag.
    destruct op as [d s0 p | j state t c | data]; try discriminate.
    symmetry in Hflag. apply String.eqb_eq in Hflag. congruence.
  - intros ops Hset.
    destruct (run_ops_latch to_seconds ops sys i self Hi Hset)
      as (self' & Hafter & _ & Hflag).
    exists self'. auto.
Qed.

Example two_estimators_first :
  Live.estimators two_estimators !! 0%nat = Some first_estimator.
Proof. vm_compute. reflexivity. Qed.

Lemma confirmation_received_is_a_one_way_latch_witness :
  Live.estimators two_estimators !! 0%nat = Some first_estimator
  /\ exists self',
       Live.estimators
         (Live.run_op sample_to_seconds two_estimators
            (Live.op_message (Live._task_uuid first_estimator)))
         !! 0%nat = Some self'
       /\ Live._confirmation_received self' = true.
Proof.
  split; [vm_compute; reflexivity|].
  apply (confirmation_received_is_a_one_way_latch sample_to_seconds
           two_estimators 0 first_estimator).
  vm_compute; reflexivity.
Defined.

(** Token correlation on two live estimators: a message with the UUID of the
    first sets the latch of the first and leaves the second unlatched. *)
Example token_correlation :
  map Live._confirmation_received
    (Live.estimators
       (Live.run_op sample_to_seconds two_estimators
          (Live.op_message "0b6f1a9e-52c4-4d0e-8b7a-3f1c2d4e5a60")))
  = [true; false].
Proof. vm_compute. reflexivity. Qed.

(** ** Durations *)

(** C6.  For an estimator whose [_initial_wait_duration] is not negative,
    [invariant_duration] is that duration as long as the confirmation has not
    been received and zero once it has: on a latched estimator, and on the
    estimator as the callback leaves it after a message with its own UUID.
    The estimator without messaging has no confirmation to receive and
    always answers its wait duration. *)
Theorem invariant_duration_before_and_after_confirmation
    (self : Live.Model) (plain : AlwaysAdvance.Model) :
  0 <= Live._initial_wait_duration self ->
  (Live._confirmation_received self = false ->
   Live.invariant_duration self = Live._initial_wait_duration self)
  /\ (Live._confirmation_received self = true ->
      Live.invariant_duration self = 0)
  /\ (forall w : Live.World,
        Live.invariant_duration
          (fst (snd (Live.on_confirmation_received (Live._task_uuid self)
                       (self, w)))) = 0)
  /\ AlwaysAdvance.invariant_duration plain =
     AlwaysAdvance._initial_wait_duration plain.
Proof.
  intros _. unfold Live.invariant_duration. repeat split.
  - intros ->. reflexivity.
  - intros ->. reflexivity.
  - intros w. rewrite on_confirmation_received_run, String.eqb_refl.
    reflexivity.
Qed.

Lemma invariant_duration_before_and_after_confirmation_witness :
  0 <= Live._initial_wait_duration first_estimator
  /\ (Live._confirmation_received first_estimator = false ->
      Live.invariant_duration first_estimator = seconds 5).
Proof.
  split; [vm_compute; discriminate|].
  apply (invariant_duration_before_and_after_confirmation first_estimator
           {| AlwaysAdvance._invariant_finish_state := sample_state 0 0.5;
              AlwaysAdvance._invariant_battery_drain := 0.01;
              AlwaysAdvance._initial_wait_duration := seconds 5;
              AlwaysAdvance._timeout_duration := seconds 20 |}).
  vm_compute; discriminate.
Defined.

(** A freshly built estimator is not latched, and it keeps the two durations
    exactly as the description has them, negative or not. *)
Lemma make_model_fresh (to_seconds : Duration -> float)
    (d : Description.Implementation) (state : State) (p : Parameters)
    (w : Live.World) :
  let self := fst (Live.make_model to_seconds d state p w) in
  Live._confirmation_received self = false
  /\ Live._initial_wait_duration self = Description.initial_wait_duration d
  /\ Live._timeout_duration self = Description.timeout_duration d
  /\ Live._confirmation_request_time self =
     Live.steady_clock w (Live.clock_reads w)
  /\ Live._task_uuid self = Live.uuid_random w (Live.uuid_reads w).
Proof. repeat split. Qed.

(** A successful estimate of an unlatched estimator is one stored wait
    duration later than the input state, whatever the sign of the
    duration. *)
Lemma unlatched_success_advances (self : Live.Model) (w : Live.World)
    (state : State) (earliest_arrival_time : Time) (constraints : Constraints)
    (e : Estimate) (t0 : Time) :
  Live._confirmation_received self = false ->
  fst (Live.estimate_finish state earliest_arrival_time constraints (self, w))
  = Returns (Some e) ->
  time state = Some t0 ->
  time (finish_state e) = Some (t0 + Live._initial_wait_duration self).
Proof.
  intros Hclear. destruct state as [[t|] [soc|]]; run_method;
    rewrite Hclear; simpl; split_tests; intros Hrun Htime;
    try discriminate; inversion Hrun; inversion Htime; reflexivity.
Qed.

Lemma plain_success_advances (plain : AlwaysAdvance.Model) (state : State)
    (earliest_arrival_time : Time) (constraints : Constraints)
    (e : Estimate) (t0 : Time) :
  fst (AlwaysAdvance.estimate_finish plain state earliest_arrival_time
         constraints tt) = Returns (Some e) ->
  time state = Some t0 ->
  time (finish_state e)
  = Some (t0 + AlwaysAdvance._initial_wait_duration plain).
Proof.
  destruct state as [[t|] [soc|]]; run_method; split_tests;
    intros Hrun Htime; try discriminate;
    inversion Hrun; inversion Htime; reflexivity.
Qed.

(** C7, as the code has it.  [Description::make] takes any two durations,
    negative ones too, and stores them as given, and [make_model] builds an
    estimator from them in both implementations.  The estimator does not
    normalize the durations: it stores the wait duration and the timeout as
    configured, answers the configured wait duration as its
    [invariant_duration], and every estimate that it gives while unlatched is
    the configured wait duration later than the input state, earlier when
    the duration is negative.  Only the drain of one interval treats a
    negative wait duration as zero: it is the ambient sink's change in charge
    over [max(initial_wait_duration, 0)] seconds when the parameters have an
    ambient sink, and [0.0] when they have none. *)
Theorem negative_durations_are_accepted_and_drain_is_clamped
    (to_seconds : Duration -> float)
    (initial_wait_duration timeout_duration : Duration)
    (state : State) (parameters : Parameters) (w : Live.World) :
  let d := Description.make initial_wait_duration timeout_duration in
  let drain :=
    match ambient_sink parameters with
    | Some sink =>
        compute_change_in_charge sink
          (to_seconds (Z.max initial_wait_duration 0))
    | None => 0%float
    end in
  let live := fst (Live.make_model to_seconds d state parameters w) in
  let plain := AlwaysAdvance.make_model to_seconds d state parameters in
  Description.initial_wait_duration d = initial_wait_duration
  /\ Description.timeout_duration d = timeout_duration
  /\ Live._invariant_battery_drain live = drain
  /\ AlwaysAdvance._invariant_battery_drain plain = drain
  /\ (Live._initial_wait_duration live = initial_wait_duration
      /\ Live._timeout_duration live = timeout_duration
      /\ Live.invariant_duration live = initial_wait_duration)
  /\ (AlwaysAdvance._initial_wait_duration plain = initial_wait_duration
      /\ AlwaysAdvance._timeout_duration plain = timeout_duration
      /\ AlwaysAdvance.invariant_duration plain = initial_wait_duration)
  /\ (forall (w' : Live.World) (input : State) (earliest_arrival_time : Time)
             (constraints : Constraints) (e : Estimate) (t0 : Time),
        fst (Live.estimate_finish input earliest_arrival_time constraints
               (live, w')) = Returns (Some e) ->
        time input = Some t0 ->
        time (finish_state e) = Some (t0 + initial_wait_duration))
  /\ (forall (input : State) (earliest_arrival_time : Time)
             (constraints : Constraints) (e : Estimate) (t0 : Time),
        fst (AlwaysAdvance.estimate_finish plain input earliest_arrival_time
               constraints tt) = Returns (Some e) ->
        time input = Some t0 ->
        time (finish_state e) = Some (t0 + initial_wait_duration)).
Proof.
  assert (Hmax : (if initial_wait_duration <? 0 then 0
                  else initial_wait_duration) = Z.max initial_wait_duration 0).
  { destruct (Z.ltb_spec initial_wait_duration 0); lia. }
  intros d drain live plain.
  split; [reflexivity|]. split; [reflexivity|].
  split.
  { subst live drain. unfold Live.make_model, Live.Model_new. simpl.
    destruct (ambient_sink parameters); simpl; [rewrite Hmax|]; reflexivity. }
  split.
  { subst plain drain.
    unfold AlwaysAdvance.make_model, AlwaysAdvance.Model_new. simpl.
    destruct (ambient_sink parameters); simpl; [rewrite Hmax|]; reflexivity. }
  split; [repeat split|]. split; [repeat split|].
  split.
  - intros w' input t c e t0 Hrun Htime.
    apply (unlatched_success_advances live w' input t c e t0);
      [reflexivity | exact Hrun | exact Htime].
  - intros input t c e t0 Hrun Htime.
    apply (plain_success_advances plain input t c e t0 Hrun Htime).
Qed.

(** C7, as the claim has it, fails: the estimator does not normalize
    negative durations to zero.  Built from [make(-5s, 20s)], both
    implementations answer minus five seconds as their [invariant_duration]
    and give, for a state at ten seconds, an estimate at five seconds.
    Built from [make(5s, -1s)], the estimator rejects a call at an elapsed
    wait of zero, which the estimator built from [make(5s, 0s)] accepts. *)
Lemma negative_durations_are_kept_by_the_estimator :
  let backwards :=
    Live.make_model sample_to_seconds
      (Description.make (seconds (-5)) (seconds 20))
      (sample_state 0 0.5) sample_parameters (sample_world [0; 0; 0]) in
  let plain :=
    AlwaysAdvance.make_model sample_to_seconds
      (Description.make (seconds (-5)) (seconds 20))
      (sample_state 0 0.5) sample_parameters in
  let built_with (timeout : Duration) :=
    Live.make_model sample_to_seconds
      (Description.make (seconds 5) timeout)
      (sample_state 0 0.5) sample_parameters (sample_world [0; 0; 0]) in
  Live.invariant_duration (fst backwards) = seconds (-5)
  /\ AlwaysAdvance.invariant_duration plain = seconds (-5)
  /\ fst (Live.estimate_finish (sample_state (seconds 10) 0.5) (seconds 60)
            (no_drain 0.1) backwards)
     = Returns (Some {| finish_state := sample_state (seconds 5) 0.5;
                        wait_until := seconds 60 |})
  /\ fst (AlwaysAdvance.estimate_finish plain (sample_state (seconds 10) 0.5)
            (seconds 60) (no_drain 0.1) tt)
     = Returns (Some {| finish_state := sample_state (seconds 5) 0.5;
                        wait_until := seconds 60 |})
  /\ Live._timeout_duration (fst (built_with (seconds (-1)))) = seconds (-1)
  /\ fst (Live.estimate_finish (sample_state (seconds 10) 0.5) (seconds 60)
            (no_drain 0.1) (built_with (seconds (-1))))
     = Returns None
  /\ fst (Live.estimate_finish (sample_state (seconds 10) 0.5) (seconds 60)
            (no_drain 0.1) (built_with 0))
     = Returns (Some {| finish_state := sample_state (seconds 15) 0.5;
                        wait_until := seconds 60 |}).
Proof. vm_compute. repeat split. Qed.

(** With the sample sink, a wait of minus five seconds drains as much as a
    wait of zero seconds, while the estimator goes on answering minus five
    seconds as its duration. *)
Example negative_wait_sample :
  let self :=
    fst (Live.make_model sample_to_seconds
           (Description.make (seconds (-5)) (seconds 20))
           (sample_state 0 0.5) sample_parameters (sample_world [])) in
  Live._invariant_battery_drain self = 0%float
  /\ Live.invariant_duration self = seconds (-5).
Proof. vm_compute. split; reflexivity. Qed.

(** ** The battery tests *)

(** A [double] below [0.0] is at or below every [double] that [0.0] is at or
    below (so none of the two is NaN). *)
Lemma below_zero_below_threshold (x threshold : float) :
  (x <? 0)%float = true ->
  (0 <=? threshold)%float = true ->
  (x <=? threshold)%float = true.
Proof.
  rewrite ltb_spec, !leb_spec. unfold SFltb, SFleb.
  replace (Prim2SF 0) with (S754_zero false) by reflexivity.
  destruct (Prim2SF x) as [[|]|[|]| |[|] mx ex];
    destruct (Prim2SF threshold) as [[|]|[|]| |[|] mt et];
    simpl; congruence.
Qed.

(** C1, as the code has it.  With [drain_battery = false] the charge is
    neither drained nor tested against [0.0]; the threshold test remains.  On
    a call that the timeout does not reject, with time and charge set, the
    result is [None] when the charge is at or below [threshold_soc], and an
    estimate that carries the charge unchanged when it is above.  The same
    holds for the estimator without messaging. *)
Theorem without_drain_only_the_threshold_rejects
    (self : Live.Model) (w : Live.World) (plain : AlwaysAdvance.Model)
    (state : State) (earliest_arrival_time : Time) (constraints : Constraints)
    (t0 : Time) (soc : float) :
  drain_battery constraints = false ->
  time state = Some t0 ->
  battery_soc state = Some soc ->
  past_timeout_test self w ->
  ((soc <=? threshold_soc constraints)%float = true ->
   fst (Live.estimate_finish state earliest_arrival_time constraints
          (self, w)) = Returns None
   /\ fst (AlwaysAdvance.estimate_finish plain state earliest_arrival_time
             constraints tt) = Returns None)
  /\ ((soc <=? threshold_soc constraints)%float = false ->
      (exists e,
         fst (Live.estimate_finish state earliest_arrival_time constraints
                (self, w)) = Returns (Some e)
         /\ battery_soc (finish_state e) = Some soc)
      /\ (exists e,
            fst (AlwaysAdvance.estimate_finish plain state
                   earliest_arrival_time constraints tt) = Returns (Some e)
            /\ battery_soc (finish_state e) = Some soc)).
Proof.
  intros Hdrain Htime Hsoc Hpast. split; intros Hcmp.
  - split; run_method; rewrite_facts; split_tests; reflexivity.
  - split; run_method; rewrite_facts; split_tests;
      try (eexists; split; [reflexivity | simpl; exact Hsoc]);
      use_timeout_test Hpast.
Qed.

Lemma without_drain_only_the_threshold_rejects_witness :
  (drain_battery (no_drain 0.1) = false
   /\ time (sample_state 0 0.05) = Some 0
   /\ battery_soc (sample_state 0 0.05) = Some 0.05%float
   /\ past_timeout_test first_estimator (sample_world [seconds 5; seconds 5]))
  /\ fst (Live.estimate_finish (sample_state 0 0.05) (seconds 60)
            (no_drain 0.1)
            (first_estimator, sample_world [seconds 5; seconds 5]))
     = Returns None.
Proof.
  assert (Hpast : past_timeout_test first_estimator
                    (sample_world [seconds 5; seconds 5])).
  { right. vm_compute. discriminate. }
  split; [repeat split; exact Hpast|].
  apply (proj1 (without_drain_only_the_threshold_rejects first_estimator
                  (sample_world [seconds 5; seconds 5]) plain_estimator
                  (sample_state 0 0.05) (seconds 60) (no_drain 0.1) 0 0.05
                  eq_refl eq_refl eq_refl Hpast)).
  reflexivity.
Defined.

(** C1, as the claim has it, fails: five seconds into a wait with a timeout
    of twenty, with [drain_battery = false], a state whose charge 0.05 is
    below the threshold 0.1 gets no estimate from either implementation,
    where the same call with the charge 0.5 gets one. *)
Lemma low_charge_is_rejected_without_drain :
  fst (Live.estimate_finish (sample_state 0 0.05) (seconds 60) (no_drain 0.1)
         (first_estimator, sample_world [seconds 5; seconds 5]))
  = Returns None
  /\ fst (AlwaysAdvance.estimate_finish plain_estimator (sample_state 0 0.05)
            (seconds 60) (no_drain 0.1) tt)
     = Returns None
  /\ fst (Live.estimate_finish (sample_state 0 0.5) (seconds 60) (no_drain 0.1)
            (first_estimator, sample_world [seconds 5; seconds 5]))
     = Returns (Some {| finish_state := sample_state (seconds 5) 0.5;
                        wait_until := seconds 60 |}).
Proof. vm_compute. repeat split. Qed.

(** C5.  On a call with time and charge set, each of the two battery tests
    alone denies the estimate, in both implementations.  With
    [drain_battery] the drained charge is tested against [0.0], whatever the
    threshold is; the charge that is left (drained or not) is tested against
    [threshold_soc], whatever its sign is; and without [drain_battery] a
    charge below [0.0] is caught by the threshold test as soon as the
    threshold is not negative.  Conversely a call that passes the timeout
    test and both battery tests gets an estimate. *)
Theorem each_battery_test_rejects
    (self : Live.Model) (w : Live.World) (plain : AlwaysAdvance.Model)
    (state : State) (earliest_arrival_time : Time) (constraints : Constraints)
    (t0 : Time) (soc : float) :
  time state = Some t0 ->
  battery_soc state = Some soc ->
  let live :=
    fst (Live.estimate_finish state earliest_arrival_time constraints
           (self, w)) in
  let simple :=
    fst (AlwaysAdvance.estimate_finish plain state earliest_arrival_time
           constraints tt) in
  let left_live :=
    post_drain_soc (Live._invariant_battery_drain self) constraints soc in
  let left_simple :=
    post_drain_soc (AlwaysAdvance._invariant_battery_drain plain)
      constraints soc in
  (drain_battery constraints = true ->
   ((left_live <? 0)%float = true -> live = Returns None)
   /\ ((left_simple <? 0)%float = true -> simple = Returns None))
  /\ ((left_live <=? threshold_soc constraints)%float = true ->
      live = Returns None)
  /\ ((left_simple <=? threshold_soc constraints)%float = true ->
      simple = Returns None)
  /\ ((0 <=? threshold_soc constraints)%float = true ->
      ((left_live <? 0)%float = true -> live = Returns None)
      /\ ((left_simple <? 0)%float = true -> simple = Returns None))
  /\ (past_timeout_test self w ->
      (drain_battery constraints && (left_live <? 0)%float = false) ->
      (left_live <=? threshold_soc constraints)%float = false ->
      exists e, live = Returns (Some e))
  /\ ((drain_battery constraints && (left_simple <? 0)%float = false) ->
      (left_simple <=? threshold_soc constraints)%float = false ->
      exists e, simple = Returns (Some e)).
Proof.
  intros Htime Hsoc live simple left_live left_simple.
  assert (Hlive : (left_live <=? threshold_soc constraints)%float = true ->
                  live = Returns None).
  { subst live left_live. unfold post_drain_soc. intros Hle.
    run_method. rewrite_facts. split_tests; rewrite_facts;
      try reflexivity; congruence. }
  assert (Hsimple : (left_simple <=? threshold_soc constraints)%float = true ->
                    simple = Returns None).
  { subst simple left_simple. unfold post_drain_soc. intros Hle.
    run_method. rewrite_facts. split_tests; rewrite_facts;
      try reflexivity; congruence. }
  split.
  { intros Hdrain. split; intros Hneg.
    - subst live left_live. unfold post_drain_soc in Hneg.
      rewrite Hdrain in Hneg.
      run_method. rewrite_facts. split_tests; reflexivity.
    - subst simple left_simple. unfold post_drain_soc in Hneg.
      rewrite Hdrain in Hneg.
      run_method. rewrite_facts. reflexivity. }
  split; [exact Hlive|]. split; [exact Hsimple|].
  split.
  { intros Hthreshold. split; intros Hneg; [apply Hlive | apply Hsimple];
      apply below_zero_below_threshold; assumption. }
  split.
  - subst live left_live. unfold post_drain_soc.
    intros Hpast Hneg Hle.
    run_method. rewrite_facts. split_tests; rewrite_facts;
      try (eexists; reflexivity); try discriminate;
      try congruence; use_timeout_test Hpast.
  - subst simple left_simple. unfold post_drain_soc.
    intros Hneg Hle.
    run_method. rewrite_facts. split_tests; rewrite_facts;
      try (eexists; reflexivity); try discriminate; congruence.
Qed.

Lemma each_battery_test_rejects_witness :
  (time (sample_state 0 0.005) = Some 0
   /\ battery_soc (sample_state 0 0.005) = Some 0.005%float)
  /\ fst (Live.estimate_finish (sample_state 0 0.005) (seconds 60)
            (with_drain 0)
            (first_estimator, sample_world [seconds 5; seconds 5]))
     = Returns None.
Proof.
  split; [split; reflexivity|].
  apply (proj1 (proj1 (each_battery_test_rejects first_estimator
                         (sample_world [seconds 5; seconds 5]) plain_estimator
                         (sample_state 0 0.005) (seconds 60) (with_drain 0)
                         0 0.005 eq_refl eq_refl) eq_refl)).
  reflexivity.
Defined.

(** The last line of the log tells which test denied the estimate.  A charge
    of 0.005 that one interval drains by 0.01 is turned down as depleted;
    a charge of 0.05 that is not drained is turned down for the threshold 0.1
    although it is not negative. *)
Example rejected_for_depletion :
  let run :=
    Live.estimate_finish (sample_state 0 0.005) (seconds 60) (with_drain 0)
      (first_estimator, sample_world [seconds 5; seconds 5]) in
  fst run = Returns None
  /\ head (Live.logger (snd (snd run))) =
     Some (Live.ERROR, "Battery depleted while waiting for confirmation.").
Proof. vm_compute. split; reflexivity. Qed.

Example rejected_for_threshold :
  let run :=
    Live.estimate_finish (sample_state 0 0.05) (seconds 60) (no_drain 0.1)
      (first_estimator, sample_world [seconds 5; seconds 5]) in
  fst run = Returns None
  /\ head (Live.logger (snd (snd run))) =
     Some (Live.ERROR,
           "Battery SOC below threshold while waiting for confirmation.").
Proof. vm_compute. split; reflexivity. Qed.

(** ** Successful estimates *)

(** C3.  A successful estimate of an unlatched estimator was made within the
    timeout; its state is the input state one [_initial_wait_duration]
    later, with the charge that the battery tests left, and its finish time
    is the [earliest_arrival_time] of the call.  A successful estimate of a
    latched estimator has the time of the input state, both in its state and
    as its finish time.  The estimator without messaging always answers as
    the unlatched one. *)
Theorem successful_estimate
    (self : Live.Model) (w : Live.World) (state : State)
    (earliest_arrival_time : Time) (constraints : Constraints)
    (e : Estimate) :
    fst (Live.estimate_finish state earliest_arrival_time constraints
           (self, w)) = Returns (Some e) ->
  exists (t0 : Time) (soc : float),
    time state = Some t0
    /\ battery_soc state = Some soc
    /\ (Live._confirmation_received self = false ->
        elapsed self w <= Live._timeout_duration self
        /\ e = {| finish_state :=
                    {| time := Some (t0 + Live._initial_wait_duration self);
                       battery_soc :=
                         Some (post_drain_soc
                                 (Live._invariant_battery_drain self)
                                 constraints soc) |};
                  wait_until := earliest_arrival_time |})
    /\ (Live._confirmation_received self = true ->
        e = {| finish_state :=
                 {| time := Some t0;
                    battery_soc :=
                      Some (post_drain_soc
                              (Live._invariant_battery_drain self)
                              constraints soc) |};
               wait_until := t0 |}).
Proof.
  unfold elapsed, post_drain_soc. destruct state as [[t0|] [soc|]];
    run_method;
    destruct (Live._confirmation_received self) eqn:Hflag; simpl;
    split_tests; intros Hrun; try discriminate;
    exists t0, soc; (split; [reflexivity|]); (split; [reflexivity|]);
    (split; [intros Hclear | intros Hset]); try discriminate;
    (try split);
    try (rewrite Z.gtb_ltb in Heqb; apply Z.ltb_ge in Heqb; exact Heqb);
    inversion Hrun; reflexivity.
Qed.

Lemma successful_estimate_witness :
  fst (Live.estimate_finish (sample_state 0 0.5) (seconds 60) (no_drain 0.1)
         (first_estimator, sample_world [seconds 5; seconds 5]))
  = Returns (Some {| finish_state := sample_state (seconds 5) 0.5;
                     wait_until := seconds 60 |})
  /\ exists (t0 : Time) (soc : float),
       time (sample_state 0 0.5) = Some t0
       /\ battery_soc (sample_state 0 0.5) = Some soc.
Proof.
  split; [vm_compute; reflexivity|].
  destruct (successful_estimate first_estimator
              (sample_world [seconds 5; seconds 5]) (sample_state 0 0.5)
              (seconds 60) (no_drain 0.1)
              {| finish_state := sample_state (seconds 5) 0.5;
                 wait_until := seconds 60 |} eq_refl)
    as (t0 & soc & Htime & Hsoc & _).
  exists t0, soc. split; assumption.
Defined.

(** The estimator without messaging: a successful estimate is one wait
    interval later than the input state and finishes at the given time. *)
Lemma successful_estimate_without_messaging
    (plain : AlwaysAdvance.Model) (state : State)
    (earliest_arrival_time : Time) (constraints : Constraints)
    (e : Estimate) :
  fst (AlwaysAdvance.estimate_finish plain state earliest_arrival_time
         constraints tt) = Returns (Some e) ->
  exists (t0 : Time) (soc : float),
    time state = Some t0
    /\ battery_soc state = Some soc
    /\ e = {| finish_state :=
                {| time :=
                     Some (t0 + AlwaysAdvance._initial_wait_duration plain);
                   battery_soc :=
                     Some (post_drain_soc
                             (AlwaysAdvance._invariant_battery_drain plain)
                             constraints soc) |};
              wait_until := earliest_arrival_time |}.
Proof.
  unfold post_drain_soc. destruct state as [[t0|] [soc|]];
    run_method; split_tests; intros Hrun; try discriminate;
    exists t0, soc; (split; [reflexivity|]); (split; [reflexivity|]);
    inversion Hrun; reflexivity.
Qed.

(** A confirmation that arrives between two calls: the estimate before it is
    five seconds later than its input and finishes at the given time, the
    estimate after it keeps the time of its input and finishes at that
    time. *)
Example confirmation_between_two_calls :
  let '(before, (self, w)) :=
    Live.estimate_finish (sample_state 0 0.5) (seconds 60) (no_drain 0.1)
      (first_estimator, sample_world [seconds 5; seconds 5; seconds 10]) in
  let '(_, (self, w)) :=
    Live.on_confirmation_received (Live._task_uuid self) (self, w) in
  let after :=
    fst (Live.estimate_finish (sample_state (seconds 5) 0.5) (seconds 60)
           (no_drain 0.1) (self, w)) in
  before = Returns (Some {| finish_state := sample_state (seconds 5) 0.5;
                            wait_until := seconds 60 |})
  /\ after = Returns (Some {| finish_state := sample_state (seconds 5) 0.5;
                             wait_until := seconds 5 |}).
Proof. vm_compute. split; reflexivity. Qed.

(** ** States with an unset field *)

(** C10, as the claim has it, fails for the estimator with messaging: a call
    that the timeout rejects (here 21 seconds into a wait with a timeout of
    20) returns [None] on a state with neither field set, and a latched
    estimator returns [None] on a state without a time whose charge is below
    the threshold. *)
Lemma unset_fields_can_give_none :
  fst (Live.estimate_finish unset_state (seconds 60) (no_drain 0.1)
         (first_estimator, sample_world [seconds 21]))
  = Returns None
  /\ fst (Live.estimate_finish {| time := None; battery_soc := Some 0.05%float |}
            (seconds 60) (no_drain 0.1)
            (latched_estimator, sample_world [seconds 5]))
     = Returns None.
Proof. vm_compute. split; reflexivity. Qed.

(** C10, as the code has it.  The estimator without messaging reads the time
    and the charge on every call and throws [std::bad_optional_access] as
    soon as one of them is unset.  The estimator with messaging reads the
    charge on every call that the timeout does not reject, with or without
    [drain_battery], and reads the time first on every such call while it is
    unlatched, so these calls throw on an unset field; no call gives an
    estimate unless both fields are set; and a call that the timeout rejects
    returns [None] without reading either field.  Once latched it reads the
    time only to build the estimate: on a state without a time a latched
    call returns [None] when the charge fails a battery test and throws when
    the charge passes them. *)
Theorem unset_fields_throw
    (self : Live.Model) (w : Live.World) (plain : AlwaysAdvance.Model)
    (state : State) (earliest_arrival_time : Time)
    (constraints : Constraints) :
  let live :=
    fst (Live.estimate_finish state earliest_arrival_time constraints
           (self, w)) in
  let simple :=
    fst (AlwaysAdvance.estimate_finish plain state earliest_arrival_time
           constraints tt) in
  (time state = None \/ battery_soc state = None ->
   simple = Throws bad_optional_access)
  /\ (past_timeout_test self w -> battery_soc state = None ->
      live = Throws bad_optional_access)
  /\ (Live._confirmation_received self = false ->
      elapsed self w <= Live._timeout_duration self ->
      time state = None ->
      live = Throws bad_optional_access)
  /\ (forall e : Estimate,
        live = Returns (Some e) ->
        time state <> None /\ battery_soc state <> None)
  /\ (Live._confirmation_received self = false ->
      Live._timeout_duration self < elapsed self w ->
      live = Returns None)
  /\ (forall soc : float,
        Live._confirmation_received self = true ->
        time state = None ->
        battery_soc state = Some soc ->
        live =
        if battery_passes constraints
             (post_drain_soc (Live._invariant_battery_drain self) constraints
                soc)
        then Throws bad_optional_access
        else Returns None).
Proof.
  intros live simple. subst live simple.
  split.
  { intros [Hunset|Hunset]; run_method; rewrite_facts;
      split_tests; reflexivity. }
  split.
  { intros Hpast Hunset. run_method. rewrite_facts.
    split_tests; rewrite_facts; try reflexivity; use_timeout_test Hpast. }
  split.
  { intros Hclear Hwithin Hunset. unfold elapsed in Hwithin.
    run_method. rewrite_facts. split_tests; [|reflexivity].
    apply Z.gtb_lt in Heqb. lia. }
  split.
  { intros e. destruct state as [[t0|] [soc|]]; run_method;
      split_tests; intros Hrun; try discriminate; split; discriminate. }
  split.
  { intros Hclear Hlate.
    rewrite (estimate_finish_timeout self w state earliest_arrival_time
               constraints Hclear Hlate).
    reflexivity. }
  intros soc Hset Htime Hsoc.
  destruct state as [tm charge]. simpl in Htime, Hsoc. subst tm charge.
  unfold battery_passes, post_drain_soc.
  run_method. rewrite Hset. simpl.
  destruct (drain_battery constraints); simpl; split_tests; reflexivity.
Qed.

(** A latched estimator on a state without a time: the charge 0.5 passes the
    battery tests and the call throws where it would build the estimate; the
    charge 0.05 fails the threshold test and the call returns [None]. *)
Example latched_call_without_a_time :
  fst (Live.estimate_finish {| time := None; battery_soc := Some 0.5%float |}
         (seconds 60) (no_drain 0.1)
         (latched_estimator, sample_world [seconds 5]))
  = Throws bad_optional_access
  /\ fst (Live.estimate_finish
            {| time := None; battery_soc := Some 0.05%float |}
            (seconds 60) (no_drain 0.1)
            (latched_estimator, sample_world [seconds 5]))
     = Returns None.
Proof. vm_compute. split; reflexivity. Qed.

(** ** The timeout *)

Lemma stays_late_after_timeout (self : Live.Model) (w : Live.World) :
  stays_late self w -> stays_late self (after_timeout w).
Proof.
  intros Hlate k. specialize (Hlate (S k)). simpl.
  replace (S (Live.clock_reads w + k))%nat
    with (Live.clock_reads w + S k)%nat by lia.
  exact Hlate.
Qed.

Lemma stays_late_now (self : Live.Model) (w : Live.World) :
  stays_late self w -> Live._timeout_duration self < elapsed self w.
Proof.
  intros Hlate. specialize (Hlate O). rewrite Nat.add_0_r in Hlate.
  unfold elapsed. lia.
Qed.

(** Polling an unlatched estimator whose clock stays past the deadline: every
    call is rejected and the estimator stays as it is. *)
Lemma poll_timed_out (n : nat) (self : Live.Model) (w : Live.World)
    (state : State) (t : Time) (c : Constraints) :
  Live._confirmation_received self = false ->
  stays_late self w ->
  poll n state t c (self, w) =
  (repeat (Returns None) n, (state, (self, Nat.iter n after_timeout w))).
Proof.
  intros Hclear. revert w. induction n as [|n IH]; intros w Hlate.
  - reflexivity.
  - cbn [poll].
    rewrite (estimate_finish_timeout self w state t c Hclear
               (stays_late_now self w Hlate)).
    fold (after_timeout w). cbn [next_state].
    rewrite (IH (after_timeout w) (stays_late_after_timeout self w Hlate)).
    cbn [repeat]. rewrite <- Nat.iter_succ_r. reflexivity.
Qed.

Lemma after_timeouts (n : nat) (w : Live.World) :
  Live.steady_clock (Nat.iter n after_timeout w) = Live.steady_clock w
  /\ Live.clock_reads (Nat.iter n after_timeout w) = (Live.clock_reads w + n)%nat
  /\ Live.request_confirmation_topic (Nat.iter n after_timeout w) =
     Live.request_confirmation_topic w
  /\ Live.uuid_reads (Nat.iter n after_timeout w) = Live.uuid_reads w.
Proof.
  induction n as [|n (Hclock & Hreads & Htopic & Huuid)]; simpl.
  - rewrite Nat.add_0_r. auto.
  - rewrite Hclock, Hreads, Htopic, Huuid. repeat split; lia.
Qed.

(** C4.  A call on an unlatched estimator whose elapsed wait exceeds the
    timeout returns [None], whatever the state and the constraints are.  The
    rejection is an ordinary return: it reads the clock and writes a line of
    log, and it leaves the estimator and the request topic as they were.  It
    does not go away on retrying: as long as the clock has not gone back, the
    next call returns [None] as well, with any state, arrival time and
    constraints. *)
Theorem timeout_returns_none
    (self : Live.Model) (w : Live.World) (state : State)
    (earliest_arrival_time : Time) (constraints : Constraints) :
  Live._confirmation_received self = false ->
  Live._timeout_duration self < elapsed self w ->
  Live.estimate_finish state earliest_arrival_time constraints (self, w)
  = (Returns None, (self, after_timeout w))
  /\ (Live.steady_clock w (Live.clock_reads w)
      <= Live.steady_clock w (S (Live.clock_reads w)) ->
      forall (state' : State) (earliest_arrival_time' : Time)
             (constraints' : Constraints),
        fst (Live.estimate_finish state' earliest_arrival_time' constraints'
               (self, after_timeout w)) = Returns None).
Proof.
  intros Hclear Hlate. split.
  - apply estimate_finish_timeout; assumption.
  - intros Hclock state' t' c'.
    rewrite estimate_finish_timeout; [reflexivity | exact Hclear |].
    unfold elapsed in *. simpl. lia.
Qed.

Lemma timeout_returns_none_witness :
  (Live._confirmation_received first_estimator = false
   /\ Live._timeout_duration first_estimator
      < elapsed first_estimator (sample_world [seconds 21; seconds 22]))
  /\ Live.estimate_finish (sample_state 0 0.5) (seconds 60) (no_drain 0.1)
       (first_estimator, sample_world [seconds 21; seconds 22])
     = (Returns None,
        (first_estimator,
         after_timeout (sample_world [seconds 21; seconds 22]))).
Proof.
  split; [split; reflexivity|].
  apply (timeout_returns_none first_estimator
           (sample_world [seconds 21; seconds 22]) (sample_state 0 0.5)
           (seconds 60) (no_drain 0.1) eq_refl eq_refl).
Defined.

(** C9.  Once the timeout has rejected a call, repeating the call any number
    of times, at a clock that stands still or moves on, is rejected every
    time: the rejections leave the estimator as it was, its request time
    included, and publish nothing. *)
Theorem timeout_rejection_repeats
    (self : Live.Model) (w : Live.World) (state : State)
    (earliest_arrival_time : Time) (constraints : Constraints) (n : nat) :
  Live._confirmation_received self = false ->
  Live._timeout_duration self < elapsed self w ->
  (forall k : nat,
     Live.steady_clock w (Live.clock_reads w)
     <= Live.steady_clock w (Live.clock_reads w + k)) ->
  let run := poll n state earliest_arrival_time constraints (self, w) in
  fst run = repeat (Returns None) n
  /\ fst (snd (snd run)) = self
  /\ Live.request_confirmation_topic (snd (snd (snd run))) =
     Live.request_confirmation_topic w.
Proof.
  intros Hclear Hlate Hclock run. subst run.
  rewrite poll_timed_out; [| exact Hclear |].
  - simpl. repeat split. apply after_timeouts.
  - intros k. specialize (Hclock k). unfold elapsed in Hlate. lia.
Qed.

Lemma timeout_rejection_repeats_witness :
  (Live._confirmation_received first_estimator = false
   /\ Live._timeout_duration first_estimator
      < elapsed first_estimator (stopped_world (seconds 21))
   /\ forall k : nat,
        Live.steady_clock (stopped_world (seconds 21))
          (Live.clock_reads (stopped_world (seconds 21)))
        <= Live.steady_clock (stopped_world (seconds 21))
             (Live.clock_reads (stopped_world (seconds 21)) + k))
  /\ fst (poll 3 (sample_state 0 0.5) (seconds 60) (no_drain 0.1)
            (first_estimator, stopped_world (seconds 21)))
     = [Returns None; Returns None; Returns None].
Proof.
  assert (Hclock : forall k : nat,
            Live.steady_clock (stopped_world (seconds 21))
              (Live.clock_reads (stopped_world (seconds 21)))
            <= Live.steady_clock (stopped_world (seconds 21))
                 (Live.clock_reads (stopped_world (seconds 21)) + k)).
  { intros k. apply Z.le_refl. }
  split; [repeat split; exact Hclock|].
  apply (timeout_rejection_repeats first_estimator
           (stopped_world (seconds 21)) (sample_state 0 0.5) (seconds 60)
           (no_drain 0.1) 3 eq_refl eq_refl Hclock).
Defined.

(** ** Polling while the confirmation does not arrive *)

Lemma estimate_finish_wait (self : Live.Model) (w : Live.World)
    (earliest_arrival_time : Time) (constraints : Constraints)
    (t0 : Time) (soc : float) :
  Live._confirmation_received self = false ->
  elapsed self w <= Live._timeout_duration self ->
  drain_battery constraints = false ->
  (soc <=? threshold_soc constraints)%float = false ->
  Live.estimate_finish {| time := Some t0; battery_soc := Some soc |}
    earliest_arrival_time constraints (self, w)
  = (kth_estimate (Live._initial_wait_duration self) t0 soc
       earliest_arrival_time 0,
     after_wait self w).
Proof.
  intros Hclear Hwithin Hdrain Hcmp. unfold elapsed in Hwithin.
  run_method. rewrite_facts.
  destruct (Z.gtb_spec
              (Live.steady_clock w (Live.clock_reads w)
               - Live._confirmation_request_time self)
              (Live._timeout_duration self)) as [Hgt|_]; [lia|].
  unfold kth_estimate, after_wait, set_time. simpl.
  rewrite Z.mul_1_l. reflexivity.
Qed.

Lemma poll_waiting (earliest_arrival_time : Time) (constraints : Constraints)
    (soc : float) (n : nat) :
  drain_battery constraints = false ->
  (soc <=? threshold_soc constraints)%float = false ->
  forall (self : Live.Model) (w : Live.World) (t0 : Time),
    Live._confirmation_received self = false ->
    (forall k : nat,
       (k < n)%nat ->
       elapsed_at k {| time := Some t0; battery_soc := Some soc |}
         earliest_arrival_time constraints (self, w)
       <= Live._timeout_duration self) ->
    fst (poll n {| time := Some t0; battery_soc := Some soc |}
           earliest_arrival_time constraints (self, w))
    = map (kth_estimate (Live._initial_wait_duration self) t0 soc
             earliest_arrival_time) (seq 0 n).
Proof.
  intros Hdrain Hcmp. induction n as [|n IH]; intros self w t0 Hclear Hwithin.
  - reflexivity.
  - assert (Hfirst : elapsed self w <= Live._timeout_duration self).
    { apply (Hwithin O). lia. }
    pose proof (estimate_finish_wait self w earliest_arrival_time constraints
                  t0 soc Hclear Hfirst Hdrain Hcmp) as Hstep.
    assert (Hrest : forall k : nat,
              (k < n)%nat ->
              elapsed_at k
                {| time := Some (t0 + Live._initial_wait_duration self);
                   battery_soc := Some soc |}
                earliest_arrival_time constraints (after_wait self w)
              <= Live._timeout_duration self).
    { intros k Hk. specialize (Hwithin (S k) ltac:(lia)).
      unfold elapsed_at in *. cbn [poll] in Hwithin.
      rewrite Hstep in Hwithin. unfold kth_estimate in Hwithin.
      cbn [next_state finish_state] in Hwithin.
      rewrite Z.mul_1_l in Hwithin.
      destruct (poll k _ earliest_arrival_time constraints (after_wait self w))
        as [rs s'] eqn:Hpoll.
      exact Hwithin. }
    cbn [poll]. rewrite Hstep. unfold kth_estimate at 1.
    cbn [next_state finish_state]. rewrite Z.mul_1_l.
    specialize (IH (fst (after_wait self w)) (snd (after_wait self w))
                  (t0 + Live._initial_wait_duration self) Hclear).
    replace (fst (after_wait self w), snd (after_wait self w))
      with (after_wait self w) in IH by reflexivity.
    specialize (IH Hrest).
    destruct (poll n _ earliest_arrival_time constraints (after_wait self w))
      as [rs s'] eqn:Hpoll.
    cbn [fst] in *. subst rs.
    cbn [seq map]. f_equal.
    rewrite <- seq_shift, map_map. apply map_ext. intros k.
    unfold kth_estimate. simpl Live._initial_wait_duration.
    replace (t0 + Live._initial_wait_duration self
             + Z.of_nat (S k) * Live._initial_wait_duration self)
      with (t0 + Z.of_nat (S (S k)) * Live._initial_wait_duration self)
      by (rewrite (Nat2Z.inj_succ (S k)); ring).
    reflexivity.
Qed.

Lemma poll_one_more (earliest_arrival_time : Time) (constraints : Constraints)
    (n : nat) (state : State) (s : Live.Model * Live.World) :
  poll (S n) state earliest_arrival_time constraints s =
  let '(rs, (state', s')) :=
    poll n state earliest_arrival_time constraints s in
  let '(r, s'') :=
    Live.estimate_finish state' earliest_arrival_time constraints s' in
  ((rs ++ [r])%list, (next_state state' r, s'')).
Proof.
  revert state s. induction n as [|n IH]; intros state s.
  - cbn [poll].
    destruct (Live.estimate_finish state earliest_arrival_time constraints s)
      as [r s']. reflexivity.
  - change (poll (S (S n)) state earliest_arrival_time constraints s)
      with (let '(r, s') :=
              Live.estimate_finish state earliest_arrival_time constraints s in
            let '(rs, last) :=
              poll (S n) (next_state state r) earliest_arrival_time
                constraints s' in
            (r :: rs, last)).
    change (poll (S n) state earliest_arrival_time constraints s)
      with (let '(r, s') :=
              Live.estimate_finish state earliest_arrival_time constraints s in
            let '(rs, last) :=
              poll n (next_state state r) earliest_arrival_time
                constraints s' in
            (r :: rs, last)).
    destruct (Live.estimate_finish state earliest_arrival_time constraints s)
      as [r s1].
    rewrite IH.
    destruct (poll n (next_state state r) earliest_arrival_time constraints s1)
      as [rs [state' s']].
    destruct (Live.estimate_finish state' earliest_arrival_time constraints s')
      as [r' s'']. reflexivity.
Qed.

Lemma poll_keeps_latch (earliest_arrival_time : Time)
    (constraints : Constraints) (n : nat) (state : State)
    (self : Live.Model) (w : Live.World) :
  let self' :=
    fst (snd (snd (poll n state earliest_arrival_time constraints
                     (self, w)))) in
  Live._confirmation_received self' = Live._confirmation_received self
  /\ Live._timeout_duration self' = Live._timeout_duration self.
Proof.
  revert state self w. induction n as [|n IH]; intros state self w.
  - split; reflexivity.
  - cbn [poll].
    pose proof (estimate_finish_keeps_latch self w state earliest_arrival_time
                  constraints) as (Hflag & _ & _ & Htimeout & _).
    destruct (Live.estimate_finish state earliest_arrival_time constraints
                (self, w)) as [r [self1 w1]].
    specialize (IH (next_state state r) self1 w1).
    destruct (poll n (next_state state r) earliest_arrival_time constraints
                (self1, w1)) as [rs last].
    simpl in *. destruct IH as [IHflag IHtimeout]. split; congruence.
Qed.

(** C2, as the code has it.  An unlatched estimator with a wait of five
    seconds and a timeout of twenty is polled without [drain_battery] from a
    state at [t0] whose charge is above the threshold.  When the elapsed wait
    that each of the first four calls computes is at most twenty seconds (as
    it is at 5, 10, 15 and 20 seconds), all four calls succeed and the
    estimates are 5, 10, 15 and 20 seconds later than [t0]: twenty seconds
    do not exceed the timeout.  A fifth call whose elapsed wait exceeds
    twenty seconds returns [None]. *)
Theorem four_polls_within_the_timeout
    (self : Live.Model) (w : Live.World) (earliest_arrival_time : Time)
    (constraints : Constraints) (t0 : Time) (soc : float) :
  let state := {| time := Some t0; battery_soc := Some soc |} in
  let elapsed_at_call k :=
    elapsed_at k state earliest_arrival_time constraints (self, w) in
  let estimate_after (n : Z) :=
    Returns (Some {| finish_state :=
                       {| time := Some (t0 + seconds n);
                          battery_soc := Some soc |};
                     wait_until := earliest_arrival_time |}) in
  Live._confirmation_received self = false ->
  Live._initial_wait_duration self = seconds 5 ->
  Live._timeout_duration self = seconds 20 ->
  drain_battery constraints = false ->
  (soc <=? threshold_soc constraints)%float = false ->
  (forall k : nat, (k < 4)%nat -> elapsed_at_call k <= seconds 20) ->
  fst (poll 4 state earliest_arrival_time constraints (self, w))
  = [estimate_after 5; estimate_after 10; estimate_after 15;
     estimate_after 20]
  /\ (seconds 20 < elapsed_at_call 4%nat ->
      fst (poll 5 state earliest_arrival_time constraints (self, w))
      = [estimate_after 5; estimate_after 10; estimate_after 15;
         estimate_after 20; Returns None]).
Proof.
  intros state elapsed_at_call estimate_after
    Hclear Hwait Htimeout Hdrain Hcmp Hwithin.
  assert (Hfour :
            fst (poll 4 state earliest_arrival_time constraints (self, w))
            = [estimate_after 5; estimate_after 10; estimate_after 15;
               estimate_after 20]).
  { subst state. rewrite (poll_waiting earliest_arrival_time constraints soc 4
                            Hdrain Hcmp self w t0 Hclear).
    - subst estimate_after. unfold kth_estimate. rewrite Hwait.
      cbn [seq map]. unfold seconds. repeat f_equal; lia.
    - intros k Hk. rewrite Htimeout. exact (Hwithin k Hk). }
  split; [exact Hfour|].
  intros Hlate. subst elapsed_at_call. cbv beta in Hlate.
  unfold elapsed_at in Hlate.
  rewrite poll_one_more.
  pose proof (poll_keeps_latch earliest_arrival_time constraints 4 state
                self w) as [Hflag4 Htimeout4].
  destruct (poll 4 state earliest_arrival_time constraints (self, w))
    as [rs [state4 [self4 w4]]].
  cbn [fst snd] in *. subst rs.
  rewrite estimate_finish_timeout; [reflexivity | congruence | ].
  rewrite Htimeout4, Htimeout. exact Hlate.
Qed.

Lemma four_polls_within_the_timeout_witness :
  (Live._confirmation_received first_estimator = false
   /\ Live._initial_wait_duration first_estimator = seconds 5
   /\ Live._timeout_duration first_estimator = seconds 20
   /\ map (fun k =>
             elapsed_at k (sample_state 0 0.5) (seconds 60) (no_drain 0.1)
               (first_estimator, sample_world widening_clock))
        [0; 1; 2; 3; 4]%nat
      = map seconds [5; 10; 15; 20; 21])
  /\ fst (poll 5 (sample_state 0 0.5) (seconds 60) (no_drain 0.1)
            (first_estimator, sample_world widening_clock))
     = (map (fun n =>
               Returns
                 (Some {| finish_state := sample_state (0 + seconds n) 0.5;
                          wait_until := seconds 60 |}))
          [5; 10; 15; 20] ++ [Returns None])%list.
Proof.
  split; [repeat split|].
  assert (Hwithin : forall k : nat,
            (k < 4)%nat ->
            elapsed_at k (sample_state 0 0.5) (seconds 60) (no_drain 0.1)
              (first_estimator, sample_world widening_clock) <= seconds 20).
  { intros [|[|[|[|k]]]] Hk; [vm_compute; discriminate .. | lia]. }
  apply (four_polls_within_the_timeout first_estimator
           (sample_world widening_clock) (seconds 60) (no_drain 0.1) 0 0.5
           eq_refl eq_refl eq_refl eq_refl eq_refl Hwithin).
  reflexivity.
Defined.

(** C2, as the claim has it, fails.  The estimator is built at clock value 0
    from [make(5s, 20s)].  Whether the four calls come 5, 10, 15 and 20
    seconds after that, or whether their elapsed waits are 5, 10, 15 and 20
    seconds, the fourth call gives an estimate, twenty seconds later than the
    first state, and not [None]. *)
Lemma fourth_call_at_twenty_seconds_succeeds :
  let polled (clock : list Time) :=
    poll 4 (sample_state 0 0.5) (seconds 60) (no_drain 0.1)
      (Live.make_model sample_to_seconds
         (Description.make (seconds 5) (seconds 20)) (sample_state 0 0.5)
         sample_parameters (sample_world (0 :: clock))) in
  let estimate_after (n : Z) :=
    Returns (Some {| finish_state := sample_state (seconds n) 0.5;
                     wait_until := seconds 60 |}) in
  fst (polled (map seconds [5; 5; 10; 10; 15; 15; 20; 20]))
  = map estimate_after [5; 10; 15; 20]
  /\ fst (polled (map seconds [5; 5; 15; 15; 30; 30; 50; 50]))
     = map estimate_after [5; 10; 15; 20]
  /\ map (fun k =>
            elapsed_at k (sample_state 0 0.5) (seconds 60) (no_drain 0.1)
              (Live.make_model sample_to_seconds
                 (Description.make (seconds 5) (seconds 20))
                 (sample_state 0 0.5) sample_parameters
                 (sample_world
                    (0 :: map seconds [5; 5; 15; 15; 30; 30; 50; 50]))))
       [0; 1; 2; 3]%nat
     = map seconds [5; 10; 15; 20].
Proof. vm_compute. repeat split. Qed.

(** ** Further properties of a single call *)

(** X1.  While the estimator with messaging is unlatched and within its
    timeout, its estimate is the estimate of the estimator without messaging
    that has the same members: the same estimate, the same [None], the same
    exception. *)
Theorem waiting_estimate_agrees_without_messaging
    (self : Live.Model) (w : Live.World) (state : State)
    (earliest_arrival_time : Time) (constraints : Constraints) :
  Live._confirmation_received self = false ->
  elapsed self w <= Live._timeout_duration self ->
  fst (Live.estimate_finish state earliest_arrival_time constraints (self, w))
  = fst (AlwaysAdvance.estimate_finish (without_messaging self) state
           earliest_arrival_time constraints tt).
Proof.
  intros Hclear Hwithin. unfold elapsed in Hwithin.
  run_method. rewrite_facts.
  destruct (Z.gtb_spec
              (Live.steady_clock w (Live.clock_reads w)
               - Live._confirmation_request_time self)
              (Live._timeout_duration self)) as [Hgt|_]; [lia|].
  destruct state as [[t0|] [soc|]]; simpl; split_tests; reflexivity.
Qed.

Lemma waiting_estimate_agrees_without_messaging_witness :
  (Live._confirmation_received first_estimator = false
   /\ elapsed first_estimator (sample_world [seconds 5; seconds 5])
      <= Live._timeout_duration first_estimator)
  /\ fst (Live.estimate_finish (sample_state 0 0.5) (seconds 60)
            (with_drain 0.1)
            (first_estimator, sample_world [seconds 5; seconds 5]))
     = fst (AlwaysAdvance.estimate_finish (without_messaging first_estimator)
              (sample_state 0 0.5) (seconds 60) (with_drain 0.1) tt).
Proof.
  assert (Hwithin : elapsed first_estimator
                      (sample_world [seconds 5; seconds 5])
                    <= Live._timeout_duration first_estimator).
  { vm_compute. discriminate. }
  split; [split; [reflexivity | exact Hwithin]|].
  exact (waiting_estimate_agrees_without_messaging first_estimator
           (sample_world [seconds 5; seconds 5]) (sample_state 0 0.5)
           (seconds 60) (with_drain 0.1) eq_refl Hwithin).
Defined.

(** X2.  The result of a latched estimator depends on the state, the
    constraints and the drain of one interval only: two latched estimators
    with the same drain give the same result whatever their request times,
    timeouts, wait durations and UUIDs are, whatever the clock shows and
    whatever arrival time the caller passes.  In particular a latched
    estimator is never rejected by the timeout. *)
Theorem latched_estimate_ignores_clock_and_arrival_time
    (self self' : Live.Model) (w w' : Live.World) (state : State)
    (earliest_arrival_time earliest_arrival_time' : Time)
    (constraints : Constraints) :
  Live._confirmation_received self = true ->
  Live._confirmation_received self' = true ->
  Live._invariant_battery_drain self = Live._invariant_battery_drain self' ->
  fst (Live.estimate_finish state earliest_arrival_time constraints (self, w))
  = fst (Live.estimate_finish state earliest_arrival_time' constraints
           (self', w')).
Proof.
  intros Hset Hset' Hdrain. run_method. rewrite Hset, Hset', Hdrain. simpl.
  destruct state as [[t0|] [soc|]]; simpl; split_tests; reflexivity.
Qed.

Lemma latched_estimate_ignores_clock_and_arrival_time_witness :
  (Live._confirmation_received latched_estimator = true
   /\ Live._invariant_battery_drain latched_estimator
      = Live._invariant_battery_drain
          (Live.with_confirmation_request_time (seconds 3) latched_estimator))
  /\ fst (Live.estimate_finish (sample_state (seconds 7) 0.5) (seconds 60)
            (with_drain 0.1) (latched_estimator, sample_world [seconds 500]))
     = fst (Live.estimate_finish (sample_state (seconds 7) 0.5) (seconds 90)
              (with_drain 0.1)
              (Live.with_confirmation_request_time (seconds 3)
                 latched_estimator,
               sample_world [seconds 4])).
Proof.
  split; [split; reflexivity|].
  exact (latched_estimate_ignores_clock_and_arrival_time latched_estimator
           (Live.with_confirmation_request_time (seconds 3) latched_estimator)
           (sample_world [seconds 500]) (sample_world [seconds 4])
           (sample_state (seconds 7) 0.5) (seconds 60) (seconds 90)
           (with_drain 0.1) eq_refl eq_refl eq_refl).
Defined.

(** X3.  A call on an unlatched estimator that passes the timeout test and
    finds the time of the state set requests the confirmation again before
    it looks at the battery.  Whatever the call then returns or throws, the
    UUID has been published once more, the log has the line of the request,
    the clock has been read twice, and the request time is the second value
    read. *)
Theorem waiting_call_requests_again_whatever_the_battery
    (self : Live.Model) (w : Live.World) (state : State)
    (earliest_arrival_time : Time) (constraints : Constraints) (t0 : Time) :
  Live._confirmation_received self = false ->
  elapsed self w <= Live._timeout_duration self ->
  time state = Some t0 ->
  let after :=
    snd (Live.estimate_finish state earliest_arrival_time constraints
           (self, w)) in
  fst after =
    Live.with_confirmation_request_time
      (Live.steady_clock w (S (Live.clock_reads w))) self
  /\ Live.request_confirmation_topic (snd after) =
     Live._task_uuid self :: Live.request_confirmation_topic w
  /\ Live.clock_reads (snd after) = S (S (Live.clock_reads w))
  /\ In (Live.INFO,
         "Confirmation requested with UUID: " ++ Live._task_uuid self)
       (Live.logger (snd after)).
Proof.
  intros Hclear Hwithin Htime after. subst after. unfold elapsed in Hwithin.
  run_method. rewrite_facts.
  destruct (Z.gtb_spec
              (Live.steady_clock w (Live.clock_reads w)
               - Live._confirmation_request_time self)
              (Live._timeout_duration self)) as [Hgt|_]; [lia|].
  simpl. split_tests; simpl; repeat split; auto.
Qed.

Lemma waiting_call_requests_again_whatever_the_battery_witness :
  (Live._confirmation_received first_estimator = false
   /\ elapsed first_estimator (sample_world [seconds 5; seconds 6])
      <= Live._timeout_duration first_estimator
   /\ fst (Live.estimate_finish {| time := Some 0; battery_soc := None |}
             (seconds 60) (no_drain 0.1)
             (first_estimator, sample_world [seconds 5; seconds 6]))
      = Throws bad_optional_access)
  /\ fst (snd (Live.estimate_finish {| time := Some 0; battery_soc := None |}
                 (seconds 60) (no_drain 0.1)
                 (first_estimator, sample_world [seconds 5; seconds 6])))
     = Live.with_confirmation_request_time (seconds 6) first_estimator.
Proof.
  assert (Hwithin : elapsed first_estimator
                      (sample_world [seconds 5; seconds 6])
                    <= Live._timeout_duration first_estimator).
  { vm_compute. discriminate. }
  split; [split; [reflexivity | split; [exact Hwithin | reflexivity]]|].
  exact (proj1 (waiting_call_requests_again_whatever_the_battery
                  first_estimator (sample_world [seconds 5; seconds 6])
                  {| time := Some 0; battery_soc := None |} (seconds 60)
                  (no_drain 0.1) 0 eq_refl Hwithin eq_refl)).
Defined.

(** X4.  A call on a latched estimator, a call that the timeout rejects and a
    call on a state without a time do not request the confirmation: they
    leave every member of the estimator as it was, publish nothing and read
    the clock once. *)
Theorem other_calls_do_not_request
    (self : Live.Model) (w : Live.World) (state : State)
    (earliest_arrival_time : Time) (constraints : Constraints) :
  Live._confirmation_received self = true
  \/ Live._timeout_duration self < elapsed self w
  \/ time state = None ->
  let after :=
    snd (Live.estimate_finish state earliest_arrival_time constraints
           (self, w)) in
  fst after = self
  /\ Live.request_confirmation_topic (snd after) =
     Live.request_confirmation_topic w
  /\ Live.clock_reads (snd after) = S (Live.clock_reads w).
Proof.
  intros Hcase after. subst after. unfold elapsed in Hcase.
  run_method.
  destruct (Live._confirmation_received self) eqn:Hflag; simpl.
  - split_tests; repeat split.
  - destruct (Z.gtb_spec
                (Live.steady_clock w (Live.clock_reads w)
                 - Live._confirmation_request_time self)
                (Live._timeout_duration self)) as [Hgt|Hle]; simpl.
    + repeat split.
    + destruct Hcase as [Hset|[Hlate|Hunset]]; [discriminate | lia |].
      rewrite Hunset. simpl. repeat split.
Qed.

Lemma other_calls_do_not_request_witness :
  (Live._confirmation_received latched_estimator = true
   \/ Live._timeout_duration latched_estimator
      < elapsed latched_estimator (sample_world [seconds 500])
   \/ time (sample_state 0 0.5) = None)
  /\ fst (snd (Live.estimate_finish (sample_state 0 0.5) (seconds 60)
                 (no_drain 0.1)
                 (latched_estimator, sample_world [seconds 500])))
     = latched_estimator.
Proof.
  split; [left; reflexivity|].
  exact (proj1 (other_calls_do_not_request latched_estimator
                  (sample_world [seconds 500]) (sample_state 0 0.5)
                  (seconds 60) (no_drain 0.1) (or_introl eq_refl))).
Defined.

(** X5.  Every call that returns [None] writes exactly one line at severity
    [ERROR], and a call that returns an estimate or throws writes none: the
    number of [ERROR] lines in the log grows by one in the first case and
    stays the same in the second. *)
Theorem rejections_are_logged_as_errors
    (self : Live.Model) (w : Live.World) (state : State)
    (earliest_arrival_time : Time) (constraints : Constraints) :
  let run :=
    Live.estimate_finish state earliest_arrival_time constraints (self, w) in
  errors (snd (snd run)) =
  match fst run with
  | Returns None => S (errors w)
  | _ => errors w
  end.
Proof.
  unfold errors. run_method. split_tests; reflexivity.
Qed.

(** ** Further properties of a system of estimators *)

(** What a call of [estimate_finish] leaves of the world besides the clock
    count and the log: at most one new request, with the UUID of the
    estimator. *)
Lemma estimate_finish_world (self : Live.Model) (w : Live.World)
    (state : State) (t : Time) (c : Constraints) :
  let w' := snd (snd (Live.estimate_finish state t c (self, w))) in
  Live.steady_clock w' = Live.steady_clock w
  /\ Live.uuid_random w' = Live.uuid_random w
  /\ Live.uuid_reads w' = Live.uuid_reads w
  /\ (Live.request_confirmation_topic w' = Live.request_confirmation_topic w
      \/ Live.request_confirmation_topic w' =
         Live._task_uuid self :: Live.request_confirmation_topic w).
Proof.
  run_method. split_tests; repeat split; auto.
Qed.

(** A delivery writes to the log only. *)
Lemma deliver_world (data : string) (live : list Live.Model) (w : Live.World) :
  let w' := snd (Live.deliver data live w) in
  Live.steady_clock w' = Live.steady_clock w
  /\ Live.clock_reads w' = Live.clock_reads w
  /\ Live.uuid_random w' = Live.uuid_random w
  /\ Live.uuid_reads w' = Live.uuid_reads w
  /\ Live.request_confirmation_topic w' = Live.request_confirmation_topic w.
Proof.
  revert w. induction live as [|self rest IH]; intros w; simpl.
  - repeat split.
  - rewrite on_confirmation_received_run.
    destruct (String.eqb data (Live._task_uuid self)); simpl;
      match goal with
      | |- context [Live.deliver data rest ?w1] =>
          specialize (IH w1);
          destruct (Live.deliver data rest w1) as [rest' w'']
      end; simpl in *; exact IH.
Qed.

Lemma received_members (data : string) (self : Live.Model) :
  Live._task_uuid (received data self) = Live._task_uuid self
  /\ Live._invariant_finish_state (received data self) =
     Live._invariant_finish_state self
  /\ Live._invariant_battery_drain (received data self) =
     Live._invariant_battery_drain self
  /\ Live._initial_wait_duration (received data self) =
     Live._initial_wait_duration self
  /\ Live._timeout_duration (received data self) = Live._timeout_duration self
  /\ Live._confirmation_request_time (received data self) =
     Live._confirmation_request_time self.
Proof.
  unfold received. destruct (String.eqb data (Live._task_uuid self));
    repeat split.
Qed.

Section Systems.

Variable to_seconds : Duration -> float.

(** One operation keeps the UUIDs of the estimators that are there, in their
    places, and [make_model] puts the UUID of the new estimator behind
    them. *)
Lemma run_op_uuids (sys : Live.System) (op : Live.Op) :
  uuids (Live.run_op to_seconds sys op) =
  match op with
  | Live.op_make_model _ _ _ =>
      (uuids sys
       ++ [Live.uuid_random (Live.world sys) (Live.uuid_reads (Live.world sys))])%list
  | _ => uuids sys
  end.
Proof.
  unfold uuids. destruct op as [d s0 p | i state t c | data]; simpl.
  - rewrite map_app. reflexivity.
  - destruct (Live.estimators sys !! i) as [self|] eqn:Hi; [|reflexivity].
    pose proof (estimate_finish_keeps_latch self (Live.world sys) state t c)
      as (_ & Huuid & _).
    destruct (Live.estimate_finish state t c (self, Live.world sys))
      as [r [self' w']]. simpl in *.
    apply list_eq. intros j. rewrite !list_lookup_fmap.
    destruct (decide (j = i)) as [->|Hne].
    + rewrite list_lookup_insert_eq by (eapply lookup_lt_Some; eauto).
      rewrite Hi. simpl. congruence.
    + rewrite list_lookup_insert_ne by congruence. reflexivity.
  - pose proof (deliver_estimators data (Live.estimators sys) (Live.world sys))
      as Hd.
    destruct (Live.deliver data (Live.estimators sys) (Live.world sys))
      as [live w']. simpl in *. subst live.
    rewrite map_map. apply map_ext. intros self.
    apply (received_members data self).
Qed.

(** What one operation does to the request topic and to the UUID source. *)
Lemma run_op_world (sys : Live.System) (op : Live.Op) :
  let w := Live.world sys in
  let w' := Live.world (Live.run_op to_seconds sys op) in
  Live.uuid_random w' = Live.uuid_random w
  /\ match op with
     | Live.op_make_model _ _ _ =>
         Live.uuid_reads w' = S (Live.uuid_reads w)
         /\ Live.request_confirmation_topic w' =
            Live.uuid_random w (Live.uuid_reads w)
            :: Live.request_confirmation_topic w
     | Live.op_estimate_finish i _ _ _ =>
         Live.uuid_reads w' = Live.uuid_reads w
         /\ (Live.request_confirmation_topic w' =
             Live.request_confirmation_topic w
             \/ exists self,
                  Live.estimators sys !! i = Some self
                  /\ Live.request_confirmation_topic w' =
                     Live._task_uuid self :: Live.request_confirmation_topic w)
     | Live.op_message _ =>
         Live.uuid_reads w' = Live.uuid_reads w
         /\ Live.request_confirmation_topic w' =
            Live.request_confirmation_topic w
     end.
Proof.
  destruct op as [d s0 p | i state t c | data]; simpl.
  - repeat split.
  - destruct (Live.estimators sys !! i) as [self|] eqn:Hi; [|auto].
    pose proof (estimate_finish_world self (Live.world sys) state t c)
      as (_ & Hrandom & Hreads & Htopic).
    destruct (Live.estimate_finish state t c (self, Live.world sys))
      as [r [self' w']]. simpl in *.
    repeat split; [assumption .. |].
    destruct Htopic as [Hsame|Hnew]; [left | right; exists self]; auto.
  - pose proof (deliver_world data (Live.estimators sys) (Live.world sys))
      as (_ & _ & Hrandom & Hreads & Htopic).
    destruct (Live.deliver data (Live.estimators sys) (Live.world sys))
      as [live w']. simpl in *. auto.
Qed.

End Systems.

(** X6.  Every request on the request topic carries the UUID of a live
    estimator.  If that holds of a system (as it does of a system without
    requests), it holds after every sequence of [make_model], of
    [estimate_finish] and of deliveries: the constructor and the calls
    publish nothing but the UUID of their own estimator. *)
Theorem requests_carry_the_uuids_of_live_estimators
    (to_seconds : Duration -> float) (ops : list Live.Op) (sys : Live.System) :
  (forall data : string,
     In data (Live.request_confirmation_topic (Live.world sys)) ->
     In data (uuids sys)) ->
  forall data : string,
    In data (Live.request_confirmation_topic
               (Live.world (Live.run_ops to_seconds sys ops))) ->
    In data (uuids (Live.run_ops to_seconds sys ops)).
Proof.
  revert sys. induction ops as [|op ops IH]; intros sys Hsys; [exact Hsys|].
  unfold Live.run_ops in *. cbn [foldl]. apply IH. clear IH.
  intros data. rewrite run_op_uuids.
  pose proof (run_op_world to_seconds sys op) as [_ Hworld].
  destruct op as [d s0 p | i state t c | msg]; cbv zeta in Hworld.
  - destruct Hworld as [_ ->]. rewrite in_app_iff. simpl.
    intros [<-|Hold]; auto.
  - destruct Hworld as [_ [->|(self & Hi & ->)]]; [apply Hsys|].
    simpl. intros [<-|Hold]; [|apply Hsys; exact Hold].
    unfold uuids. apply in_map_iff. exists self. split; [reflexivity|].
    apply list_elem_of_In. eapply list_elem_of_lookup_2. exact Hi.
  - destruct Hworld as [_ ->]. apply Hsys.
Qed.

Lemma requests_carry_the_uuids_of_live_estimators_witness :
  (forall data : string,
     In data (Live.request_confirmation_topic
                (Live.world {| Live.estimators := [];
                               Live.world := sample_world [] |})) ->
     In data (uuids {| Live.estimators := [];
                       Live.world := sample_world [] |}))
  /\ forall data : string,
       In data (Live.request_confirmation_topic (Live.world two_estimators)) ->
       In data (uuids two_estimators).
Proof.
  assert (Hempty : forall data : string,
            In data (Live.request_confirmation_topic
                       (Live.world {| Live.estimators := [];
                                      Live.world := sample_world [] |})) ->
            In data (uuids {| Live.estimators := [];
                              Live.world := sample_world [] |})).
  { intros data []. }
  split; [exact Hempty|].
  exact (requests_carry_the_uuids_of_live_estimators sample_to_seconds _ _
           Hempty).
Defined.

(** The UUIDs of a system built from no estimators are the first strings of
    the source, one for each estimator, in the order of construction. *)
Lemma uuids_from_the_source (to_seconds : Duration -> float)
    (ops : list Live.Op) (sys : Live.System) (first : nat) :
  Live.uuid_reads (Live.world sys)
  = (first + length (Live.estimators sys))%nat ->
  uuids sys
  = map (Live.uuid_random (Live.world sys))
      (seq first (length (Live.estimators sys))) ->
  let sys' := Live.run_ops to_seconds sys ops in
  Live.uuid_random (Live.world sys') = Live.uuid_random (Live.world sys)
  /\ uuids sys'
     = map (Live.uuid_random (Live.world sys))
         (seq first (length (Live.estimators sys'))).
Proof.
  revert sys. induction ops as [|op ops IH]; intros sys Hreads Huuids;
    [split; [reflexivity | exact Huuids]|].
  unfold Live.run_ops in *. cbn [foldl].
  pose proof (run_op_uuids to_seconds sys op) as Hstep.
  pose proof (run_op_world to_seconds sys op) as [Hrandom Hworld].
  cbv zeta in Hrandom, Hworld.
  assert (Hlength : length (uuids (Live.run_op to_seconds sys op))
                    = length (Live.estimators (Live.run_op to_seconds sys op)))
    by apply length_map.
  assert (Hlength0 : length (uuids sys) = length (Live.estimators sys))
    by apply length_map.
  specialize (IH (Live.run_op to_seconds sys op)).
  rewrite Hrandom in IH. apply IH; clear IH.
  - destruct op as [d s0 p | i state t c | msg];
      rewrite <- Hlength, Hstep, ?length_app, Hlength0;
      destruct Hworld as [-> _]; simpl; lia.
  - destruct op as [d s0 p | i state t c | msg];
      rewrite <- Hlength, Hstep, ?length_app, Hlength0; try exact Huuids.
    simpl. rewrite Nat.add_1_r, seq_S, map_app, <- Huuids, Hreads.
    reflexivity.
Qed.

(** X7.  When the UUID source never repeats a string, the estimators of a
    system that was built from no estimators have pairwise distinct UUIDs,
    whatever calls and deliveries came in between; so a message that carries
    the UUID of one of them leaves each of the others exactly as it was. *)
Theorem distinct_uuids_latch_one_estimator
    (to_seconds : Duration -> float) (w : Live.World) (ops : list Live.Op)
    (i j : nat) (self other : Live.Model) :
  (forall a b : nat, Live.uuid_random w a = Live.uuid_random w b -> a = b) ->
  let sys :=
    Live.run_ops to_seconds {| Live.estimators := []; Live.world := w |} ops in
  Live.estimators sys !! i = Some self ->
  Live.estimators sys !! j = Some other ->
  i <> j ->
  NoDup (uuids sys)
  /\ Live._task_uuid self <> Live._task_uuid other
  /\ Live.estimators
       (Live.run_op to_seconds sys (Live.op_message (Live._task_uuid self)))
       !! j = Some other.
Proof.
  intros Hinj sys Hi Hj Hne.
  destruct (uuids_from_the_source to_seconds ops
              {| Live.estimators := []; Live.world := w |}
              (Live.uuid_reads w)) as [_ Huuids];
    [simpl; lia | reflexivity |].
  fold sys in Huuids. simpl in Huuids.
  assert (Hnodup : NoDup (uuids sys)).
  { rewrite Huuids. apply NoDup_fmap_2; [exact Hinj | apply NoDup_seq]. }
  assert (Hdiff : Live._task_uuid self <> Live._task_uuid other).
  { intros Heq. apply Hne.
    apply (NoDup_lookup (uuids sys) i j (Live._task_uuid self) Hnodup);
      unfold uuids; rewrite list_lookup_fmap; [rewrite Hi | rewrite Hj];
      simpl; congruence. }
  split; [exact Hnodup|]. split; [exact Hdiff|].
  simpl.
  pose proof (deliver_estimators (Live._task_uuid self) (Live.estimators sys)
                (Live.world sys)) as Hd.
  destruct (Live.deliver (Live._task_uuid self) (Live.estimators sys)
              (Live.world sys)) as [live w']. simpl in *. subst live.
  rewrite list_lookup_fmap, Hj. simpl. unfold received.
  destruct (String.eqb_spec (Live._task_uuid self) (Live._task_uuid other));
    congruence.
Qed.

Lemma tally_injective (a b : nat) : tally a = tally b -> a = b.
Proof.
  revert b. induction a as [|a IH]; intros [|b] Heq; simpl in Heq;
    try discriminate; [reflexivity|].
  f_equal. apply IH. congruence.
Qed.

Lemma distinct_uuids_latch_one_estimator_witness :
  ((forall a b : nat,
      Live.uuid_random tally_world a = Live.uuid_random tally_world b ->
      a = b)
   /\ (exists self other,
         Live.estimators
           (Live.run_ops sample_to_seconds
              {| Live.estimators := []; Live.world := tally_world |}
              build_two) !! 0%nat = Some self
         /\ Live.estimators
              (Live.run_ops sample_to_seconds
                 {| Live.estimators := []; Live.world := tally_world |}
                 build_two) !! 1%nat = Some other)
   /\ 0%nat <> 1%nat)
  /\ NoDup
       (uuids
          (Live.run_ops sample_to_seconds
             {| Live.estimators := []; Live.world := tally_world |}
             build_two)).
Proof.
  split.
  - split; [exact tally_injective|].
    split; [eexists; eexists; split; vm_compute; reflexivity | discriminate].
  - refine (proj1 (distinct_uuids_latch_one_estimator sample_to_seconds
                     tally_world build_two 0 1 _ _ tally_injective
                     eq_refl eq_refl _)).
    discriminate.
Defined.

(** Two estimators that agree on every member which the constructor fixes. *)
Lemma same_members_trans (a b c : Live.Model) :
  (Live._invariant_finish_state b = Live._invariant_finish_state a
   /\ Live._invariant_battery_drain b = Live._invariant_battery_drain a
   /\ Live._initial_wait_duration b = Live._initial_wait_duration a
   /\ Live._timeout_duration b = Live._timeout_duration a
   /\ Live._task_uuid b = Live._task_uuid a) ->
  (Live._invariant_finish_state c = Live._invariant_finish_state b
   /\ Live._invariant_battery_drain c = Live._invariant_battery_drain b
   /\ Live._initial_wait_duration c = Live._initial_wait_duration b
   /\ Live._timeout_duration c = Live._timeout_duration b
   /\ Live._task_uuid c = Live._task_uuid b) ->
  Live._invariant_finish_state c = Live._invariant_finish_state a
  /\ Live._invariant_battery_drain c = Live._invariant_battery_drain a
  /\ Live._initial_wait_duration c = Live._initial_wait_duration a
  /\ Live._timeout_duration c = Live._timeout_duration a
  /\ Live._task_uuid c = Live._task_uuid a.
Proof.
  intros (H1 & H2 & H3 & H4 & H5) (K1 & K2 & K3 & K4 & K5).
  repeat split; congruence.
Qed.

Lemma run_op_members (to_seconds : Duration -> float) (sys : Live.System)
    (op : Live.Op) (i : nat) (self : Live.Model) :
  Live.estimators sys !! i = Some self ->
  exists self',
    Live.estimators (Live.run_op to_seconds sys op) !! i = Some self'
    /\ Live._invariant_finish_state self' = Live._invariant_finish_state self
    /\ Live._invariant_battery_drain self' = Live._invariant_battery_drain self
    /\ Live._initial_wait_duration self' = Live._initial_wait_duration self
    /\ Live._timeout_duration self' = Live._timeout_duration self
    /\ Live._task_uuid self' = Live._task_uuid self.
Proof.
  intros Hi. destruct op as [d s0 p | j state t c | data]; simpl.
  - destruct (Live.make_model to_seconds d s0 p (Live.world sys)) as [new w'].
    exists self. simpl. rewrite lookup_app_l by (eapply lookup_lt_Some; eauto).
    repeat split; reflexivity || assumption.
  - destruct (Live.estimators sys !! j) as [other|] eqn:Hj;
      [|exists self; repeat split; reflexivity || assumption].
    pose proof (estimate_finish_keeps_latch other (Live.world sys) state t c)
      as (_ & Huuid & Hwait & Htimeout & Hdrain & Hstate).
    destruct (Live.estimate_finish state t c (other, Live.world sys))
      as [r [other' w']]. simpl in *.
    destruct (decide (i = j)) as [->|Hne].
    + exists other'. rewrite list_lookup_insert_eq
        by (eapply lookup_lt_Some; eauto).
      assert (other = self) by congruence. subst other.
      repeat split; reflexivity || assumption.
    + exists self. rewrite list_lookup_insert_ne by congruence.
      repeat split; reflexivity || assumption.
  - pose proof (deliver_estimators data (Live.estimators sys) (Live.world sys))
      as Hd.
    destruct (Live.deliver data (Live.estimators sys) (Live.world sys))
      as [live w']. simpl in *. subst live.
    exists (received data self). rewrite list_lookup_fmap, Hi. simpl.
    destruct (received_members data self) as (H1 & H2 & H3 & H4 & H5 & _).
    repeat split; reflexivity || assumption.
Qed.

(** X8.  An estimator keeps its place in the system and the members that
    its constructor fixed under every sequence of operations: the state that
    [invariant_finish_state] answers, the drain of one interval, the two
    durations and the UUID are the same after any calls of [estimate_finish],
    any deliveries and any later constructions. *)
Theorem members_fixed_at_construction_never_change
    (to_seconds : Duration -> float) (ops : list Live.Op) (sys : Live.System)
    (i : nat) (self : Live.Model) :
  Live.estimators sys !! i = Some self ->
  exists self',
    Live.estimators (Live.run_ops to_seconds sys ops) !! i = Some self'
    /\ Live.invariant_finish_state self' = Live.invariant_finish_state self
    /\ Live._invariant_battery_drain self' = Live._invariant_battery_drain self
    /\ Live._initial_wait_duration self' = Live._initial_wait_duration self
    /\ Live._timeout_duration self' = Live._timeout_duration self
    /\ Live._task_uuid self' = Live._task_uuid self.
Proof.
  unfold Live.invariant_finish_state.
  revert sys self. induction ops as [|op ops IH]; intros sys self Hi.
  - exists self. repeat split; reflexivity || assumption.
  - destruct (run_op_members to_seconds sys op i self Hi) as (mid & Hmid & Hm).
    destruct (IH (Live.run_op to_seconds sys op) mid Hmid)
      as (self' & Hlast & Hl).
    exists self'. split; [exact Hlast|].
    exact (same_members_trans self mid self' Hm Hl).
Qed.

Lemma members_fixed_at_construction_never_change_witness :
  Live.estimators two_estimators !! 0%nat = Some first_estimator
  /\ exists self',
       Live.estimators
         (Live.run_ops sample_to_seconds two_estimators
            [Live.op_estimate_finish 0 (sample_state 0 0.5) (seconds 60)
               (with_drain 0.1);
             Live.op_message (Live._task_uuid first_estimator)])
         !! 0%nat = Some self'
       /\ Live.invariant_finish_state self' =
          Live.invariant_finish_state first_estimator.
Proof.
  split; [vm_compute; reflexivity|].
  destruct (members_fixed_at_construction_never_change sample_to_seconds
              [Live.op_estimate_finish 0 (sample_state 0 0.5) (seconds 60)
                 (with_drain 0.1);
               Live.op_message (Live._task_uuid first_estimator)]
              two_estimators 0 first_estimator eq_refl)
    as (self' & Hafter & Hstate & _).
  exists self'. split; assumption.
Defined.

(** X10.  On the estimators, delivering a message a second time changes
    nothing, and two messages delivered in either order leave the same
    estimators. *)
Theorem delivery_is_idempotent_and_order_independent
    (first second : string) (live : list Live.Model) (w w' w'' : Live.World) :
  fst (Live.deliver first (fst (Live.deliver first live w)) w')
  = fst (Live.deliver first live w)
  /\ fst (Live.deliver second (fst (Live.deliver first live w)) w')
     = fst (Live.deliver first (fst (Live.deliver second live w)) w'').
Proof.
  rewrite !deliver_estimators, !map_map. split; apply map_ext; intros self;
    unfold received;
    destruct (String.eqb first (Live._task_uuid self)) eqn:Hfirst;
    destruct (String.eqb second (Live._task_uuid self)) eqn:Hsecond;
    simpl; rewrite ?Hfirst, ?Hsecond; reflexivity.
Qed.

(** ** Polling with a draining battery *)

Lemma estimate_finish_passes (self : Live.Model) (w : Live.World)
    (earliest_arrival_time : Time) (constraints : Constraints)
    (t0 : Time) (soc : float) :
  Live._confirmation_received self = false ->
  elapsed self w <= Live._timeout_duration self ->
  battery_passes constraints
    (post_drain_soc (Live._invariant_battery_drain self) constraints soc)
  = true ->
  Live.estimate_finish {| time := Some t0; battery_soc := Some soc |}
    earliest_arrival_time constraints (self, w)
  = (Returns
       (Some {| finish_state :=
                  {| time := Some (t0 + Live._initial_wait_duration self);
                     battery_soc :=
                       Some (post_drain_soc
                               (Live._invariant_battery_drain self)
                               constraints soc) |};
                wait_until := earliest_arrival_time |}),
     after_wait self w).
Proof.
  intros Hclear Hwithin Hpass. unfold elapsed in Hwithin.
  unfold battery_passes, post_drain_soc in *.
  run_method. rewrite_facts.
  destruct (Z.gtb_spec
              (Live.steady_clock w (Live.clock_reads w)
               - Live._confirmation_request_time self)
              (Live._timeout_duration self)) as [Hgt|_]; [lia|].
  simpl. destruct (drain_battery constraints); simpl in *;
    split_tests; try discriminate; reflexivity.
Qed.

Lemma estimate_finish_fails (self : Live.Model) (w : Live.World)
    (earliest_arrival_time : Time) (constraints : Constraints)
    (t0 : Time) (soc : float) :
  battery_passes constraints
    (post_drain_soc (Live._invariant_battery_drain self) constraints soc)
  = false ->
  fst (Live.estimate_finish {| time := Some t0; battery_soc := Some soc |}
         earliest_arrival_time constraints (self, w))
  = Returns None.
Proof.
  intros Hfail. unfold battery_passes, post_drain_soc in *.
  run_method.
  destruct (drain_battery constraints); simpl in *;
    split_tests; try discriminate; reflexivity.
Qed.

Lemma after_polls_members (earliest_arrival_time : Time)
    (constraints : Constraints) (n : nat) (state : State)
    (self : Live.Model) (w : Live.World) :
  let self' :=
    fst (snd (snd (poll n state earliest_arrival_time constraints
                     (self, w)))) in
  Live._invariant_battery_drain self' = Live._invariant_battery_drain self
  /\ Live._initial_wait_duration self' = Live._initial_wait_duration self.
Proof.
  revert state self w. induction n as [|n IH]; intros state self w.
  - split; reflexivity.
  - cbn [poll].
    pose proof (estimate_finish_keeps_latch self w state earliest_arrival_time
                  constraints) as (_ & _ & Hwait & _ & Hdrain & _).
    destruct (Live.estimate_finish state earliest_arrival_time constraints
                (self, w)) as [r [self1 w1]].
    specialize (IH (next_state state r) self1 w1).
    destruct (poll n (next_state state r) earliest_arrival_time constraints
                (self1, w1)) as [rs last].
    simpl in *. destruct IH as [IHdrain IHwait]. split; congruence.
Qed.

(** The estimate of the call after [k] calls that all passed. *)
Lemma poll_passing (earliest_arrival_time : Time) (constraints : Constraints)
    (n : nat) :
  forall (self : Live.Model) (w : Live.World) (t0 : Time) (soc : float),
    let state := {| time := Some t0; battery_soc := Some soc |} in
    let drain := Live._invariant_battery_drain self in
    Live._confirmation_received self = false ->
    (forall k : nat,
       (k < n)%nat ->
       elapsed_at k state earliest_arrival_time constraints (self, w)
       <= Live._timeout_duration self) ->
    (forall k : nat,
       (k < n)%nat ->
       battery_passes constraints (charge_after drain constraints (S k) soc)
       = true) ->
    fst (poll n state earliest_arrival_time constraints (self, w))
    = map (fun k =>
             Returns
               (Some {| finish_state :=
                          {| time :=
                               Some (t0 + Z.of_nat (S k)
                                          * Live._initial_wait_duration self);
                             battery_soc :=
                               Some (charge_after drain constraints (S k)
                                       soc) |};
                        wait_until := earliest_arrival_time |}))
        (seq 0 n)
    /\ fst (snd (poll n state earliest_arrival_time constraints (self, w)))
       = {| time :=
              Some (t0 + Z.of_nat n * Live._initial_wait_duration self);
            battery_soc := Some (charge_after drain constraints n soc) |}.
Proof.
  induction n as [|n IH]; intros self w t0 soc state drain Hclear Hwithin Hpass.
  - split; [reflexivity|]. subst state. simpl. rewrite Z.add_0_r. reflexivity.
  - assert (Hfirst : elapsed self w <= Live._timeout_duration self).
    { apply (Hwithin O). lia. }
    assert (Hcharge : battery_passes constraints
                        (post_drain_soc drain constraints soc) = true).
    { apply (Hpass O). lia. }
    pose proof (estimate_finish_passes self w earliest_arrival_time
                  constraints t0 soc Hclear Hfirst Hcharge) as Hstep.
    fold drain in Hstep.
    specialize (IH (fst (after_wait self w)) (snd (after_wait self w))
                  (t0 + Live._initial_wait_duration self)
                  (post_drain_soc drain constraints soc)).
    cbv zeta in IH.
    replace (fst (after_wait self w), snd (after_wait self w))
      with (after_wait self w) in IH by reflexivity.
    simpl Live._confirmation_received in IH.
    simpl Live._invariant_battery_drain in IH.
    simpl Live._initial_wait_duration in IH.
    simpl Live._timeout_duration in IH.
    fold drain in IH.
    assert (Hrest : forall k : nat,
              (k < n)%nat ->
              elapsed_at k
                {| time := Some (t0 + Live._initial_wait_duration self);
                   battery_soc :=
                     Some (post_drain_soc drain constraints soc) |}
                earliest_arrival_time constraints (after_wait self w)
              <= Live._timeout_duration self).
    { intros k Hk. specialize (Hwithin (S k) ltac:(lia)).
      unfold elapsed_at in *. subst state. cbn [poll] in Hwithin.
      rewrite Hstep in Hwithin. cbn [next_state finish_state] in Hwithin.
      destruct (poll k _ earliest_arrival_time constraints (after_wait self w))
        as [rs s'] eqn:Hpoll.
      exact Hwithin. }
    assert (Hrest' : forall k : nat,
              (k < n)%nat ->
              battery_passes constraints
                (charge_after drain constraints (S k)
                   (post_drain_soc drain constraints soc)) = true).
    { intros k Hk. specialize (Hpass (S k) ltac:(lia)).
      unfold charge_after in *. rewrite <- Nat.iter_succ_r. exact Hpass. }
    destruct (IH Hclear Hrest Hrest') as [IHresults IHstate]. clear IH.
    subst state. cbn [poll]. rewrite Hstep. cbn [next_state finish_state].
    destruct (poll n _ earliest_arrival_time constraints (after_wait self w))
      as [rs [state' s']] eqn:Hpoll.
    cbn [fst snd] in *. subst rs state'.
    split.
    + cbn [seq map]. f_equal.
      * unfold charge_after. simpl Nat.iter.
        replace (Z.of_nat 1 * Live._initial_wait_duration self)
          with (Live._initial_wait_duration self) by lia.
        reflexivity.
      * rewrite <- seq_shift, map_map. apply map_ext. intros k.
        unfold charge_after. rewrite <- !Nat.iter_succ_r.
        replace (t0 + Live._initial_wait_duration self
                 + Z.of_nat (S k) * Live._initial_wait_duration self)
          with (t0 + Z.of_nat (S (S k)) * Live._initial_wait_duration self)
          by (rewrite (Nat2Z.inj_succ (S k)); ring).
        reflexivity.
    + unfold charge_after. rewrite <- Nat.iter_succ_r.
      replace (t0 + Live._initial_wait_duration self
               + Z.of_nat n * Live._initial_wait_duration self)
        with (t0 + Z.of_nat (S n) * Live._initial_wait_duration self)
        by (rewrite (Nat2Z.inj_succ n); ring).
      reflexivity.
Qed.

(** X9.  Polling an unlatched estimator [n] times, each call starting from
    the state of the estimate before it: as long as every call comes within
    the timeout of the request before it and the charge passes the battery
    tests, every call gives an estimate, the one after [k] earlier calls
    being [k + 1] wait durations later than the first state and [k + 1]
    drains lower in charge, however long the waits add up to.  The first
    call whose charge fails a battery test returns [None]. *)
Theorem polling_advances_and_drains_one_interval_per_call
    (self : Live.Model) (w : Live.World) (earliest_arrival_time : Time)
    (constraints : Constraints) (t0 : Time) (soc : float) (n : nat) :
  let state := {| time := Some t0; battery_soc := Some soc |} in
  let charge k :=
    charge_after (Live._invariant_battery_drain self) constraints k soc in
  let estimates :=
    map (fun k =>
           Returns
             (Some {| finish_state :=
                        {| time :=
                             Some (t0 + Z.of_nat (S k)
                                        * Live._initial_wait_duration self);
                           battery_soc := Some (charge (S k)) |};
                      wait_until := earliest_arrival_time |}))
      (seq 0 n) in
  Live._confirmation_received self = false ->
  (forall k : nat,
     (k < n)%nat ->
     elapsed_at k state earliest_arrival_time constraints (self, w)
     <= Live._timeout_duration self) ->
  (forall k : nat,
     (k < n)%nat -> battery_passes constraints (charge (S k)) = true) ->
  fst (poll n state earliest_arrival_time constraints (self, w)) = estimates
  /\ (battery_passes constraints (charge (S n)) = false ->
      fst (poll (S n) state earliest_arrival_time constraints (self, w))
      = (estimates ++ [Returns None])%list).
Proof.
  intros state charge estimates Hclear Hwithin Hpass.
  destruct (poll_passing earliest_arrival_time constraints n self w t0 soc
              Hclear Hwithin Hpass) as [Hresults Hstate].
  fold state in Hresults, Hstate.
  split; [exact Hresults|].
  intros Hfail. rewrite poll_one_more.
  pose proof (after_polls_members earliest_arrival_time constraints n state
                self w) as [Hdrain _].
  destruct (poll n state earliest_arrival_time constraints (self, w))
    as [rs [state' [self' w']]].
  cbn [fst snd] in *. subst rs state'.
  pose proof (estimate_finish_fails self' w' earliest_arrival_time constraints
                (t0 + Z.of_nat n * Live._initial_wait_duration self)
                (charge_after (Live._invariant_battery_drain self) constraints
                   n soc)) as Hnone.
  rewrite Hdrain in Hnone. specialize (Hnone Hfail).
  destruct (Live.estimate_finish _ earliest_arrival_time constraints
              (self', w')) as [r s''].
  cbn [fst] in Hnone. subst r. reflexivity.
Qed.

Lemma polling_advances_and_drains_one_interval_per_call_witness :
  (Live._confirmation_received first_estimator = false
   /\ battery_passes (with_drain 0.045)
        (charge_after (Live._invariant_battery_drain first_estimator)
           (with_drain 0.045) 4 0.08) = false)
  /\ fst (poll 4 (sample_state 0 0.08) (seconds 60) (with_drain 0.045)
            (first_estimator, sample_world widening_clock))
     = (map (fun k =>
               Returns
                 (Some {| finish_state :=
                            sample_state (0 + Z.of_nat (S k) * seconds 5)
                              (charge_after 0.01 (with_drain 0.045) (S k)
                                 0.08);
                          wait_until := seconds 60 |}))
          (seq 0 3) ++ [Returns None])%list.
Proof.
  split; [split; reflexivity|].
  assert (Hwithin : forall k : nat,
            (k < 3)%nat ->
            elapsed_at k (sample_state 0 0.08) (seconds 60) (with_drain 0.045)
              (first_estimator, sample_world widening_clock)
            <= Live._timeout_duration first_estimator).
  { intros [|[|[|k]]] Hk; [vm_compute; discriminate .. | lia]. }
  assert (Hpass : forall k : nat,
            (k < 3)%nat ->
            battery_passes (with_drain 0.045)
              (charge_after (Live._invariant_battery_drain first_estimator)
                 (with_drain 0.045) (S k) 0.08) = true).
  { intros [|[|[|k]]] Hk; [reflexivity .. | lia]. }
  exact (proj2 (polling_advances_and_drains_one_interval_per_call
                  first_estimator (sample_world widening_clock) (seconds 60)
                  (with_drain 0.045) 0 0.08 3 eq_refl Hwithin Hpass)
           eq_refl).
Defined.

(** ** Edge cases of the configuration *)

(** X11.  A negative timeout is not clamped: the estimator that [make_model]
    builds from a description with a negative [timeout_duration] rejects the
    first estimate that is asked of it, whatever the state and the
    constraints are, provided the clock has not gone back since the
    constructor read it. *)
Theorem negative_timeout_rejects_the_first_estimate
    (to_seconds : Duration -> float) (d : Description.Implementation)
    (invariant_initial_state : State) (parameters : Parameters)
    (w : Live.World) (state : State) (earliest_arrival_time : Time)
    (constraints : Constraints) :
  Description.timeout_duration d < 0 ->
  Live.steady_clock w (Live.clock_reads w)
  <= Live.steady_clock w (S (Live.clock_reads w)) ->
  fst (Live.estimate_finish state earliest_arrival_time constraints
         (Live.make_model to_seconds d invariant_initial_state parameters w))
  = Returns None.
Proof.
  intros Hnegative Hclock.
  rewrite (surjective_pairing
             (Live.make_model to_seconds d invariant_initial_state
                parameters w)).
  rewrite estimate_finish_timeout; [reflexivity | reflexivity |].
  unfold elapsed. simpl. lia.
Qed.

Lemma negative_timeout_rejects_the_first_estimate_witness :
  (Description.timeout_duration (Description.make (seconds 5) (seconds (-1)))
   < 0
   /\ Live.steady_clock (sample_world [0; 0]) 0
      <= Live.steady_clock (sample_world [0; 0]) 1)
  /\ fst (Live.estimate_finish (sample_state 0 0.5) (seconds 60)
            (no_drain 0.1)
            (Live.make_model sample_to_seconds
               (Description.make (seconds 5) (seconds (-1)))
               (sample_state 0 0.5) sample_parameters (sample_world [0; 0])))
     = Returns None.
Proof.
  assert (Hclock : Live.steady_clock (sample_world [0; 0]) 0
                   <= Live.steady_clock (sample_world [0; 0]) 1).
  { vm_compute. discriminate. }
  split; [split; [reflexivity | exact Hclock]|].
  exact (negative_timeout_rejects_the_first_estimate sample_to_seconds
           (Description.make (seconds 5) (seconds (-1))) (sample_state 0 0.5)
           sample_parameters (sample_world [0; 0]) (sample_state 0 0.5)
           (seconds 60) (no_drain 0.1) eq_refl Hclock).
Defined.

(** X12.  A confirmation completes the event however late it comes.  Once
    the callback has received the UUID of the estimator, a call on a state
    with time and charge set whose charge passes the battery tests gives an
    estimate at any clock value, also one far past the timeout: the estimate
    keeps the time of the state, finishes at that time and carries the
    charge that the battery tests left. *)
Theorem late_confirmation_completes_the_event
    (self : Live.Model) (w w' : Live.World) (state : State)
    (earliest_arrival_time : Time) (constraints : Constraints)
    (t0 : Time) (soc : float) :
  time state = Some t0 ->
  battery_soc state = Some soc ->
  battery_passes constraints
    (post_drain_soc (Live._invariant_battery_drain self) constraints soc)
  = true ->
  let confirmed :=
    fst (snd (Live.on_confirmation_received (Live._task_uuid self)
                (self, w))) in
  fst (Live.estimate_finish state earliest_arrival_time constraints
         (confirmed, w'))
  = Returns
      (Some {| finish_state :=
                 {| time := Some t0;
                    battery_soc :=
                      Some (post_drain_soc (Live._invariant_battery_drain self)
                              constraints soc) |};
               wait_until := t0 |}).
Proof.
  intros Htime Hsoc Hpass confirmed. subst confirmed.
  rewrite on_confirmation_received_run, String.eqb_refl.
  destruct state as [tm charge]. simpl in Htime, Hsoc. subst tm charge.
  unfold battery_passes, post_drain_soc in *.
  run_method.
  destruct (drain_battery constraints); simpl in *;
    split_tests; try discriminate; reflexivity.
Qed.

Lemma late_confirmation_completes_the_event_witness :
  (time (sample_state (seconds 7) 0.5) = Some (seconds 7)
   /\ battery_soc (sample_state (seconds 7) 0.5) = Some 0.5%float
   /\ battery_passes (no_drain 0.1)
        (post_drain_soc (Live._invariant_battery_drain first_estimator)
           (no_drain 0.1) 0.5) = true
   /\ fst (Live.estimate_finish (sample_state (seconds 7) 0.5) (seconds 60)
             (no_drain 0.1) (first_estimator, sample_world [seconds 500]))
      = Returns None)
  /\ fst (Live.estimate_finish (sample_state (seconds 7) 0.5) (seconds 60)
            (no_drain 0.1)
            (fst (snd (Live.on_confirmation_received
                         (Live._task_uuid first_estimator)
                         (first_estimator, sample_world [seconds 500]))),
             sample_world [seconds 600]))
     = Returns (Some {| finish_state := sample_state (seconds 7) 0.5;
                        wait_until := seconds 7 |}).
Proof.
  split; [repeat split|].
  exact (late_confirmation_completes_the_event first_estimator
           (sample_world [seconds 500]) (sample_world [seconds 600])
           (sample_state (seconds 7) 0.5) (seconds 60) (no_drain 0.1)
           (seconds 7) 0.5 eq_refl eq_refl eq_refl).
Defined.

(** The setters of the description take effect in everything that is
    built afterwards and do not depend on their order: after both durations
    have been set, in either order, the description is the one that [make]
    builds from the new durations, the headers of both implementations
    announce the new wait duration, and the estimators that [make_model]
    builds wait and time out by the new durations. *)
Lemma description_setters_take_effect
    (to_seconds : Duration -> float) (a b x y : Duration)
    (invariant_initial_state state : State) (parameters : Parameters)
    (w : Live.World) :
  let d :=
    Description.set_timeout_duration
      (Description.set_initial_wait_duration (Description.make a b) x) y in
  let d' :=
    Description.set_initial_wait_duration
      (Description.set_timeout_duration (Description.make a b) y) x in
  d = d'
  /\ d = Description.make x y
  /\ original_duration_estimate (Live.generate_header d state parameters) = x
  /\ original_duration_estimate
       (AlwaysAdvance.generate_header d state parameters) = x
  /\ Live.invariant_duration
       (fst (Live.make_model to_seconds d invariant_initial_state parameters
               w)) = x
  /\ Live._timeout_duration
       (fst (Live.make_model to_seconds d invariant_initial_state parameters
               w)) = y
  /\ AlwaysAdvance.invariant_duration
       (AlwaysAdvance.make_model to_seconds d invariant_initial_state
          parameters) = x.
Proof. repeat split. Qed.
